(** * BioSync: the biometric animation script

    A shallow embedding of the client-side script that tracks which
    biometric factors are validated, for which user, and decides when to
    play the car-door animation or to run the security-violation flow.

    The script keeps three JavaScript objects used as maps
    ([validatedBiometrics], [sessionValidations], [validatedUserIds]), one
    boolean ([animationVisible]) and writes the browser's two key-value
    stores.  The embedding follows that layout: module [Js] holds the part
    of the language the script relies on (property lookup and assignment on
    plain objects, truthiness, [String(...)], [===], JSON texts), module
    [BiometricAnimation] the script's functions under their own names,
    module [Spec] the consistency check as the specification words it, and
    module [Properties] what is proved of them.  [console.log] lines are
    left out; [console.error] lines, alerts, timers and the image request
    are kept as the effects of a call. *)

From Stdlib Require Import ZArith Lia.
From stdpp Require Import base gmap strings list pretty.

(* ===================================================================== *)
(** ** The JavaScript the script relies on *)
(* ===================================================================== *)

Module Js.

(** User identifiers as the capture widgets pass them on from the server:
    [null], a number or a string.  Numbers are integer keys. *)
Inductive ident :=
  | Null
  | Num (n : Z)
  | Str (s : string).

#[global] Instance ident_eq_dec : EqDecision ident.
Proof. solve_decision. Defined.

(** What the script asks of a value stored in one of its objects:
    its truthiness, and whether it is [null]. *)
Class Primitive (A : Type) := {
  truthy : A → bool;
  is_null : A → bool
}.

#[global] Instance bool_primitive : Primitive bool := {|
  truthy b := b;
  is_null _ := false
|}.

#[global] Instance ident_primitive : Primitive ident := {|
  truthy u := match u with
              | Null => false
              | Num n => negb (n =? 0)%Z
              | Str s => negb (String.eqb s "")
              end;
  is_null u := match u with Null => true | _ => false end
|}.

(** [String(userId)]: decimal digits for a number, the string itself for a
    string. *)
Definition String_ (u : ident) : string :=
  match u with
  | Null => "null"
  | Num n => pretty n
  | Str s => s
  end.

(** A plain object: its own enumerable properties in creation order, and
    whether its prototype is still [Object.prototype] (object literals and
    [JSON.parse] results start that way). *)
Record object (A : Type) := Obj {
  own : list (string * A);
  linked : bool
}.
Arguments Obj {A} own linked.
Arguments own {A} o.
Arguments linked {A} o.

(** The property names every plain object inherits from
    [Object.prototype].  All are functions, except [__proto__], an accessor
    that reads as the prototype object. None is enumerable. *)
Definition object_prototype : list string :=
  [ "constructor"; "hasOwnProperty"; "isPrototypeOf";
    "propertyIsEnumerable"; "toLocaleString"; "toString"; "valueOf";
    "__defineGetter__"; "__defineSetter__"; "__lookupGetter__";
    "__lookupSetter__"; "__proto__" ].

(** The result of reading [o[k]]. *)
Inductive slot (A : Type) :=
  | Own (a : A)
  | Inherited (name : string)
  | Undefined.
Arguments Own {A} a.
Arguments Inherited {A} name.
Arguments Undefined {A}.

#[global] Instance slot_eq_dec {A} `{EqDecision A} : EqDecision (slot A).
Proof. solve_decision. Defined.

Fixpoint assoc {A} (l : list (string * A)) (k : string) : option A :=
  match l with
  | [] => None
  | (k', a) :: l => if decide (k' = k) then Some a else assoc l k
  end.

Fixpoint update {A} (l : list (string * A)) (k : string) (v : A)
  : list (string * A) :=
  match l with
  | [] => []
  | (k', a) :: l =>
      if decide (k' = k) then (k', v) :: l else (k', a) :: update l k v
  end.

(** [o[k]]: the own property, else what the prototype gives. *)
Definition get_prop {A} (o : object A) (k : string) : slot A :=
  match assoc (own o) k with
  | Some a => Own a
  | None =>
      if linked o && bool_decide (k ∈ object_prototype)
      then Inherited k else Undefined
  end.

(** [typeof o[k] !== 'undefined'] *)
Definition is_defined {A} (x : slot A) : bool :=
  match x with Undefined => false | _ => true end.

(** Truthiness of [o[k]]: functions and objects are truthy, [undefined]
    is not. *)
Definition slot_truthy {A} `{Primitive A} (x : slot A) : bool :=
  match x with
  | Own a => truthy a
  | Inherited _ => true
  | Undefined => false
  end.

(** [x === y] on what [validatedUserIds[type]] can read as.  Two inherited
    values are the same object exactly when they come under the same name. *)
Definition strict_eq (x y : slot ident) : bool := bool_decide (x = y).

(** [o[k] = v] with [v] a primitive.  An own property is overwritten in
    place.  Otherwise, through [Object.prototype], [__proto__] is a setter:
    [null] cuts the prototype off, any other primitive is ignored, and no
    own property appears.  Otherwise the property is created, after the
    existing ones (the order of keys that are not array indices; the script
    creates properties only under names for which the lookup on
    [validatedBiometrics] is defined, array indices are not among the
    inherited names). *)
Definition set_prop {A} `{Primitive A} (o : object A) (k : string) (v : A)
  : object A :=
  match assoc (own o) k with
  | Some _ => Obj (update (own o) k v) (linked o)
  | None =>
      if linked o && bool_decide (k = "__proto__")
      then Obj (own o) (negb (is_null v))
      else Obj (own o ++ [(k, v)]) (linked o)
  end.

(** [Object.keys(o)], also the names a [for ... in] loop visits. *)
Definition keys {A} (o : object A) : list string := (own o).*1.

(** [Object.values(o)] *)
Definition values {A} (o : object A) : list A := (own o).*2.

(** [for (const k in o) o[k] = v] *)
Definition fill {A} (v : A) (o : object A) : object A :=
  Obj (prod_map id (λ _, v) <$> own o) (linked o).

(** *** JSON *)

#[local] Unset Elimination Schemes.

Inductive json :=
  | JNull
  | JBool (b : bool)
  | JNum (n : Z)
  | JStr (s : string)
  | JArr (l : list json)
  | JObj (l : list (string * json)).

#[local] Set Elimination Schemes.

(** A stored text, by the value it is the JSON of, or [Raw] for a text
    that [JSON.parse] rejects. *)
Inductive text :=
  | Json (j : json)
  | Raw (s : string).

(** Truthiness of what [getItem] returns: [null] for a missing key, else
    the stored string, falsy only when empty. *)
Definition item_truthy (item : option text) : bool :=
  match item with
  | None => false
  | Some (Json _) => true
  | Some (Raw s) => negb (String.eqb s "")
  end.

Definition json_truthy (j : json) : bool :=
  match j with
  | JNull => false
  | JBool b => b
  | JNum n => negb (n =? 0)%Z
  | JStr s => negb (String.eqb s "")
  | JArr _ | JObj _ => true
  end.

Definition json_of_ident (u : ident) : json :=
  match u with
  | Null => JNull
  | Num n => JNum n
  | Str s => JStr s
  end.

Definition ident_of_json (j : json) : option ident :=
  match j with
  | JNull => Some Null
  | JNum n => Some (Num n)
  | JStr s => Some (Str s)
  | _ => None
  end.

Definition bool_of_json (j : json) : option bool :=
  match j with
  | JBool b => Some b
  | _ => None
  end.

(** [JSON.stringify(o)] for an object of primitives. *)
Definition stringify {A} (enc : A → json) (o : object A) : text :=
  Json (JObj (prod_map id enc <$> own o)).

(** An array element that is a function or [undefined] is written as
    [null]; [Object.prototype] has no enumerable property of its own. *)
Definition json_of_element (x : slot ident) : json :=
  match x with
  | Own u => json_of_ident u
  | Inherited name =>
      if bool_decide (name = "__proto__") then JObj [] else JNull
  | Undefined => JNull
  end.

(** The object a JSON value parses to, when it is an object whose
    properties all decode.  The properties come in the order of the text:
    [JSON.parse] moves array-index keys to the front and keeps the last of
    a repeated key, and the texts the script writes have neither. *)
Definition object_of_json {A} (dec : json → option A) (j : json)
  : option (object A) :=
  match j with
  | JObj l =>
      l' ← mapM (λ kv, a ← dec kv.2; Some (kv.1, a)) l;
      Some (Obj l' true)
  | _ => None
  end.

(** [Object.values(j)] on a parsed value; [None] is the TypeError on
    [null].  A string spreads into its characters, numbers and booleans
    have no properties. *)
Definition json_values (j : json) : option (list json) :=
  match j with
  | JNull => None
  | JBool _ | JNum _ => Some []
  | JStr s => Some ((λ c, JStr (String c "")) <$> String.list_ascii_of_string s)
  | JArr l => Some l
  | JObj l => Some l.*2
  end.

End Js.

(* ===================================================================== *)
(** ** The script *)
(* ===================================================================== *)

Module BiometricAnimation.
Import Js.

(** What a timer runs when it fires. *)
Inductive task :=
  | Redirect (url : string)
  | DismissAlertAndRedirect (url : string)
  | ShowCarDoorAnimation
  | CleanUpAnimation.

(** What the script does to the page besides changing its own state:
    [console.error] lines, the two alert banners, timers, and the request
    for the animation's image that starts the playback. *)
Inductive effect :=
  | ConsoleError (msg : string) (data : option text)
  | SecurityAlert
  | MismatchAlert
  | SetTimeout (t : task) (ms : Z)
  | Fetch (url : string) (userName : option string).

(** The script's variables, the two stores, the part of the document it
    reads back (whether the overlay container exists and is opaque) and the
    clock [new Date()] reads. *)
Record state := State {
  validatedBiometrics : object bool;
  sessionValidations : object bool;
  validatedUserIds : object ident;
  animationVisible : bool;
  localStorage : gmap string text;
  sessionStorage : gmap string text;
  container : bool;
  overlay : bool;
  clock : string
}.

Definition with_validatedBiometrics (o : object bool) (s : state) : state :=
  State o (sessionValidations s) (validatedUserIds s) (animationVisible s)
    (localStorage s) (sessionStorage s) (container s) (overlay s) (clock s).

Definition with_sessionValidations (o : object bool) (s : state) : state :=
  State (validatedBiometrics s) o (validatedUserIds s) (animationVisible s)
    (localStorage s) (sessionStorage s) (container s) (overlay s) (clock s).

Definition with_validatedUserIds (o : object ident) (s : state) : state :=
  State (validatedBiometrics s) (sessionValidations s) o (animationVisible s)
    (localStorage s) (sessionStorage s) (container s) (overlay s) (clock s).

Definition with_animationVisible (b : bool) (s : state) : state :=
  State (validatedBiometrics s) (sessionValidations s) (validatedUserIds s) b
    (localStorage s) (sessionStorage s) (container s) (overlay s) (clock s).

Definition with_localStorage (m : gmap string text) (s : state) : state :=
  State (validatedBiometrics s) (sessionValidations s) (validatedUserIds s)
    (animationVisible s) m (sessionStorage s) (container s) (overlay s)
    (clock s).

Definition with_sessionStorage (m : gmap string text) (s : state) : state :=
  State (validatedBiometrics s) (sessionValidations s) (validatedUserIds s)
    (animationVisible s) (localStorage s) m (container s) (overlay s)
    (clock s).

Definition with_container (b : bool) (s : state) : state :=
  State (validatedBiometrics s) (sessionValidations s) (validatedUserIds s)
    (animationVisible s) (localStorage s) (sessionStorage s) b (overlay s)
    (clock s).

Definition with_overlay (b : bool) (s : state) : state :=
  State (validatedBiometrics s) (sessionValidations s) (validatedUserIds s)
    (animationVisible s) (localStorage s) (sessionStorage s) (container s) b
    (clock s).

Definition with_clock (now : string) (s : state) : state :=
  State (validatedBiometrics s) (sessionValidations s) (validatedUserIds s)
    (animationVisible s) (localStorage s) (sessionStorage s) (container s)
    (overlay s) now.

(** [localStorage.setItem], [sessionStorage.setItem] and [removeItem]. *)
Definition local_setItem (k : string) (v : text) (s : state) : state :=
  with_localStorage (<[k := v]> (localStorage s)) s.

Definition local_removeItem (k : string) (s : state) : state :=
  with_localStorage (delete k (localStorage s)) s.

Definition session_setItem (k : string) (v : text) (s : state) : state :=
  with_sessionStorage (<[k := v]> (sessionStorage s)) s.

Definition session_removeItem (k : string) (s : state) : state :=
  with_sessionStorage (delete k (sessionStorage s)) s.

(** The text ['true']. *)
Definition true_text : text := Json (JBool true).

Definition home_with_violation : string := "/?security_violation=true".

(** The object literals the three variables default to. *)
Definition default_flags : object bool :=
  Obj [("face", false); ("voice", false); ("retina", false);
       ("proximity", false)] true.

Definition default_ids : object ident :=
  Obj [("face", Null); ("voice", Null); ("retina", Null);
       ("proximity", Null)] true.

(** [JSON.parse(localStorage.getItem(key)) || dflt].  A missing key reads
    as [null], which parses to [null].  [None] when the module does not
    come up with an object of the expected kind: the text is not JSON (the
    parse throws at load), or it is the JSON of some other value, which
    the script never writes under these keys. *)
Definition parse_or {A} (dec : json → option A) (dflt : object A)
    (item : option text) : option (object A) :=
  match item with
  | None => Some dflt
  | Some (Raw _) => None
  | Some (Json j) => if json_truthy j then object_of_json dec j else Some dflt
  end.

(** The top-level statements: the three variables are read from
    [localStorage], the animation starts hidden. *)
Definition load (ls ss : gmap string text) (now : string) : option state :=
  vb ← parse_or bool_of_json default_flags (ls !! "validatedBiometrics");
  sv ← parse_or bool_of_json default_flags (ls !! "sessionValidations");
  ids ← parse_or ident_of_json default_ids (ls !! "validatedUserIds");
  Some (State vb sv ids false ls ss false false now).

(** The state of a first visit: nothing stored. *)
Definition initial (now : string) : state :=
  State default_flags default_flags default_ids false ∅ ∅ false false now.

(** The identifiers [doValidatedBiometricsMatchSameUser] collects. *)
Definition collectedUserIds (s : state) : list ident :=
  (List.filter
     (λ entry : string * ident,
        slot_truthy (get_prop (validatedBiometrics s) entry.1)
        && negb (is_null entry.2))
     (own (validatedUserIds s))).*2.

(** [userIds.every(userId => String(userId) === String(firstUserId))] *)
Definition allMatch (userIds : list ident) : bool :=
  match userIds with
  | [] => true
  | firstUserId :: _ =>
      forallb (λ userId, bool_decide (String_ userId = String_ firstUserId))
        userIds
  end.

Definition doValidatedBiometricsMatchSameUser (s : state) : bool * state :=
  let userIds := collectedUserIds s in
  if (length userIds <=? 1)%nat then (true, s)
  else if allMatch userIds then (true, s)
  else
    (false,
     session_setItem "biometric_security_mismatch_ids"
       (Json (JArr (json_of_ident <$> userIds)))
       (session_setItem "biometric_security_violation" true_text s)).

Definition countValidatedBiometrics (s : state) : nat :=
  fold_left (λ count type,
               if slot_truthy (get_prop (validatedBiometrics s) type)
               then S count else count)
    (keys (validatedBiometrics s)) 0%nat.

Definition countSessionValidations (s : state) : nat :=
  length (List.filter truthy (values (sessionValidations s))).

Definition resetBiometricValidations (s : state) : state :=
  let s := with_validatedBiometrics (fill false (validatedBiometrics s)) s in
  let s := with_sessionValidations (fill false (sessionValidations s)) s in
  let s := with_validatedUserIds (fill Null (validatedUserIds s)) s in
  let s := with_animationVisible false s in
  let s := local_setItem "validatedBiometrics"
             (stringify JBool (validatedBiometrics s)) s in
  let s := local_setItem "sessionValidations"
             (stringify JBool (sessionValidations s)) s in
  let s := local_setItem "validatedUserIds"
             (stringify json_of_ident (validatedUserIds s)) s in
  let s := local_removeItem "validatedUserData" s in
  session_removeItem "has_shown_biometric_welcome" s.

Definition resetSessionValidations (s : state) : state :=
  let s := with_sessionValidations (fill false (sessionValidations s)) s in
  let s := local_setItem "sessionValidations"
             (stringify JBool (sessionValidations s)) s in
  session_removeItem "has_shown_biometric_welcome" s.

Definition setSessionValidation (type : string) (isValidated : bool)
    (s : state) : bool * state :=
  if is_defined (get_prop (sessionValidations s) type) then
    let s := with_sessionValidations
               (set_prop (sessionValidations s) type isValidated) s in
    (true,
     local_setItem "sessionValidations"
       (stringify JBool (sessionValidations s)) s)
  else (false, s).

Definition createAnimationContainer (s : state) : state :=
  if container s then s else with_container true s.

(** [Object.keys(validatedBiometrics).filter(type => validatedBiometrics[type])] *)
Definition validatedTypes (s : state) : list string :=
  List.filter (λ type, slot_truthy (get_prop (validatedBiometrics s) type))
    (keys (validatedBiometrics s)).

(** [validatedTypes.map(type => validatedUserIds[type])] *)
Definition biometricUserIds (s : state) : list (slot ident) :=
  get_prop (validatedUserIds s) <$> validatedTypes s.

(** [biometricUserIds.some(id => id !== biometricUserIds[0])] *)
Definition someDiffers (ids : list (slot ident)) : bool :=
  existsb (λ id, negb (strict_eq id (default Undefined (head ids)))) ids.

Definition mismatchInfo (s : state) : json :=
  JObj [ ("timestamp", JStr (clock s));
         ("validated_types", JArr (JStr <$> validatedTypes s));
         ("user_ids", JArr (json_of_element <$> biometricUserIds s));
         ("reason",
          JStr "Biometric user ID mismatch detected during animation") ].

(** The first thing [showCarDoorAnimation] does is to check again; on a
    mismatch it records it, resets, and schedules the redirect instead of
    playing.  Otherwise the overlay is revealed and the image requested
    (the playback that follows the response only touches the document). *)
Definition showCarDoorAnimation (userName : option string) (s : state)
  : state * list effect :=
  let '(securityCheck, s) := doValidatedBiometricsMatchSameUser s in
  if negb securityCheck || someDiffers (biometricUserIds s) then
    let info := Json (mismatchInfo s) in
    let s := session_setItem "biometric_security_violation" true_text s in
    let s := session_setItem "biometric_security_violation_details" info s in
    let s := resetBiometricValidations s in
    (s,
     [ ConsoleError
         "SECURITY ALERT: Car door animation blocked due to mismatched user biometrics!"
         None;
       ConsoleError "Security violation details:" (Some info);
       MismatchAlert;
       SetTimeout (DismissAlertAndRedirect home_with_violation) 3000 ])
  else
    let s := createAnimationContainer s in
    let s := with_overlay true s in
    let s := with_animationVisible true s in
    (s, [ Fetch "/static/images/vehicles/audi/animation/car-doors.svg"
            userName ]).

Definition hideCarDoorAnimation (s : state) : state * list effect :=
  if container s
  then (with_overlay false s, [ SetTimeout CleanUpAnimation 300 ])
  else (s, []).

(** The object [userIdsByType] as [JSON.stringify] writes it.  The loop
    assigns [validatedUserIds[type]] under every validated type.  On the
    fresh object an assignment to [__proto__] creates no property, and the
    text leaves out properties whose value is a function or [undefined]. *)
Definition userIdsByType (s : state) : json :=
  JObj (omap (λ type,
                if bool_decide (type = "__proto__") then None
                else match get_prop (validatedUserIds s) type with
                     | Own userId => Some (type, json_of_ident userId)
                     | _ => None
                     end)
          (validatedTypes s)).

(** Lines 98 to 118 of [setBiometricValidated]: the update of the three
    objects and of their stored copies. *)
Definition recordValidation (type : string) (isValidated : bool)
    (userId : ident) (s : state) : state :=
  let s := with_validatedBiometrics
             (set_prop (validatedBiometrics s) type isValidated) s in
  let s :=
    if isValidated then
      let s := with_sessionValidations
                 (set_prop (sessionValidations s) type true) s in
      if negb (is_null userId) then
        let s := with_validatedUserIds
                   (set_prop (validatedUserIds s) type userId) s in
        local_setItem "validatedUserIds"
          (stringify json_of_ident (validatedUserIds s)) s
      else s
    else
      let s := with_validatedUserIds
                 (set_prop (validatedUserIds s) type Null) s in
      local_setItem "validatedUserIds"
        (stringify json_of_ident (validatedUserIds s)) s in
  let s := local_setItem "validatedBiometrics"
             (stringify JBool (validatedBiometrics s)) s in
  local_setItem "sessionValidations"
    (stringify JBool (sessionValidations s)) s.

(** The second branch of [setBiometricValidated]. *)
Definition securityViolation (s : state) : state * list effect :=
  let details := Json (userIdsByType s) in
  let s := session_setItem "biometric_security_violation" true_text s in
  let s := session_setItem "biometric_security_violation_details" details s in
  let s := resetBiometricValidations s in
  (s,
   [ ConsoleError
       "Security violation details - Mismatched biometric user IDs:"
       (Some details);
     SecurityAlert;
     SetTimeout (Redirect home_with_violation) 3000 ]).

(** [setBiometricValidated(type, isValidated = true, userId = null)]; a
    caller that leaves [userId] out passes [Null]. *)
Definition setBiometricValidated (type : string) (isValidated : bool)
    (userId : ident) (s : state) : state * list effect :=
  if is_defined (get_prop (validatedBiometrics s) type) then
    let isNewSessionValidation :=
      negb (slot_truthy (get_prop (sessionValidations s) type))
      && isValidated in
    let s := recordValidation type isValidated userId s in
    let validCount := countValidatedBiometrics s in
    let sessionCount := countSessionValidations s in
    let '(doUsersMatch, s) := doValidatedBiometricsMatchSameUser s in
    if (2 <=? validCount)%nat && negb (animationVisible s)
       && isNewSessionValidation && (2 <=? sessionCount)%nat && doUsersMatch
    then showCarDoorAnimation None s
    else if (2 <=? validCount)%nat && negb doUsersMatch
    then securityViolation s
    else (s, [])
  else (s, [ ConsoleError ("Unknown biometric type: " ++ type) None ]).

(** The [DOMContentLoaded] handler.  It reads the session flags back from
    [localStorage] into a variable of its own; a text that does not parse
    leaves the default in place.  [None] is the TypeError of
    [Object.values(null)], which ends the handler. *)
Definition storedSessionValidations (s : state) : json :=
  match localStorage s !! "sessionValidations" with
  | Some (Json j) => j
  | Some (Raw _) | None =>
      JObj [("face", JBool false); ("voice", JBool false);
            ("retina", JBool false); ("proximity", JBool false)]
  end.

Definition storedSessionCount (s : state) : option nat :=
  vs ← json_values (storedSessionValidations s);
  Some (length (List.filter json_truthy vs)).

Definition onDOMContentLoaded (s : state) : option (state * list effect) :=
  let s := createAnimationContainer s in
  let validCount := countValidatedBiometrics s in
  sessionCount ← storedSessionCount s;
  if (2 <=? validCount)%nat && negb (animationVisible s)
     && (2 <=? sessionCount)%nat
  then Some (s, [ SetTimeout ShowCarDoorAnimation 500 ])
  else Some (s, []).

(** What a timer does when it fires.  The two redirects leave the page:
    the script is loaded again from the stores, in the same tab. *)
Definition fire (t : task) (s : state) : option (state * list effect) :=
  match t with
  | ShowCarDoorAnimation => Some (showCarDoorAnimation None s)
  | CleanUpAnimation => Some (with_animationVisible false s, [])
  | Redirect _ | DismissAlertAndRedirect _ =>
      s' ← load (localStorage s) (sessionStorage s) (clock s);
      onDOMContentLoaded s'
  end.

(** The end of the animation: the overlay is hidden and, when the welcome
    script is on the page and its marker is not set, the welcome is shown
    and the marker set. *)
Definition welcomeTransition (available : bool) (s : state)
  : state * list effect :=
  let '(s, es) := hideCarDoorAnimation s in
  if available
     && negb (item_truthy (sessionStorage s !! "has_shown_biometric_welcome"))
  then (session_setItem "has_shown_biometric_welcome" true_text s, es)
  else (s, es).

(** Closing the tab ends the session: [sessionStorage] is gone,
    [localStorage] stays, and the next visit loads the script afresh. *)
Definition nextSession (s : state) (now : string) : option state :=
  load (localStorage s) ∅ now.

(** The calls the page and the capture widgets make into the script, and
    the timers it sets for itself. *)
Inductive step : state → state → Prop :=
  | step_setBiometricValidated type isValidated userId s :
      step s (setBiometricValidated type isValidated userId s).1
  | step_setSessionValidation type isValidated s :
      step s (setSessionValidation type isValidated s).2
  | step_resetBiometricValidations s :
      step s (resetBiometricValidations s)
  | step_resetSessionValidations s :
      step s (resetSessionValidations s)
  | step_showCarDoorAnimation userName s :
      step s (showCarDoorAnimation userName s).1
  | step_hideCarDoorAnimation s :
      step s (hideCarDoorAnimation s).1
  | step_cleanUp s :
      step s (with_animationVisible false s)
  | step_welcomeTransition available s :
      step s (welcomeTransition available s).1
  | step_onDOMContentLoaded s s' es :
      onDOMContentLoaded s = Some (s', es) → step s s'
  | step_fire t s s' es :
      fire t s = Some (s', es) → step s s'
  | step_reload now s s' :
      load (localStorage s) (sessionStorage s) now = Some s' → step s s'
  | step_nextSession now s s' :
      nextSession s now = Some s' → step s s'
  | step_tick now s :
      step s (with_clock now s).

Inductive reachable : state → Prop :=
  | reachable_initial now : reachable (initial now)
  | reachable_step s s' : reachable s → step s s' → reachable s'.

(** The four factors. *)
Definition factors : list string := ["face"; "voice"; "retina"; "proximity"].

(** Whether a call went into [showCarDoorAnimation]: that function, and
    nothing else, either requests the image or puts up the mismatch
    alert. *)
Definition entersShowCarDoorAnimation (es : list effect) : bool :=
  existsb (λ e, match e with
                | Fetch _ _ | MismatchAlert => true
                | _ => false
                end) es.

(** Whether a call ran one of the two security-violation flows. *)
Definition entersSecurityViolation (es : list effect) : bool :=
  existsb (λ e, match e with
                | SecurityAlert | MismatchAlert => true
                | _ => false
                end) es.

(** A stored copy agrees with the variable it was written from: the text
    is the variable's JSON, or nothing is stored and the variable has the
    default's properties. *)
Definition mirrors {A} (enc : A → json) (dflt o : object A)
    (item : option text) : Prop :=
  match item with
  | None => own o = own dflt
  | Some t => t = stringify enc o
  end.

(** The identity kept for a factor is that of a validated factor. *)
Definition noStaleIdentity (s : state) : Prop :=
  ∀ f, f ∈ factors →
    ∃ b u, get_prop (validatedBiometrics s) f = Own b
         ∧ get_prop (validatedUserIds s) f = Own u
         ∧ (u ≠ Null → b = true).

(** The stored copies are kept up to date, the two flag objects keep
    their prototype, and no factor keeps a stale identity. *)
Record kept (s : state) : Prop := {
  kept_linked_validated : linked (validatedBiometrics s) = true;
  kept_linked_session : linked (sessionValidations s) = true;
  kept_stored_validated :
    mirrors JBool default_flags (validatedBiometrics s)
      (localStorage s !! "validatedBiometrics");
  kept_stored_session :
    mirrors JBool default_flags (sessionValidations s)
      (localStorage s !! "sessionValidations");
  kept_stored_ids :
    mirrors json_of_ident default_ids (validatedUserIds s)
      (localStorage s !! "validatedUserIds");
  kept_identity : noStaleIdentity s
}.

(** No two validated factors are left standing with different users. *)
Definition consistent (s : state) : Prop :=
  (countValidatedBiometrics s < 2)%nat
  ∨ (doValidatedBiometricsMatchSameUser s).1 = true.

(** What holds of every state the script gets into from a first visit. *)
Definition invariant (s : state) : Prop := kept s ∧ consistent s.

(** Two states with the same three variables and the same [localStorage]. *)
Definition sameRecords (s s' : state) : Prop :=
  validatedBiometrics s = validatedBiometrics s'
  ∧ sessionValidations s = sessionValidations s'
  ∧ validatedUserIds s = validatedUserIds s'
  ∧ localStorage s = localStorage s'.

(** The state the decision of [setBiometricValidated] is taken in: after
    the store updates for a type that passes the guard, the state as it
    was for a type that does not. *)
Definition afterUpdate (type : string) (isValidated : bool) (userId : ident)
    (s : state) : state :=
  if is_defined (get_prop (validatedBiometrics s) type)
  then recordValidation type isValidated userId s
  else s.

End BiometricAnimation.

(* ===================================================================== *)
(** ** The consistency check as the specification words it *)
(* ===================================================================== *)

Module Spec.
Import Js.

(** One factor's record in PersistentState. *)
Record ValidationRecord := {
  validated : bool;
  userId : ident
}.

(** PersistentState: the four factors' records, in the order face, voice,
    retina, proximity. *)
Definition PersistentState : Type :=
  ValidationRecord * ValidationRecord * ValidationRecord * ValidationRecord.

Definition records (p : PersistentState) : list ValidationRecord :=
  let '(face, voice, retina, proximity) := p in
  [face; voice; retina; proximity].

(** The [userId] of every factor that is validated with a non-null
    [userId]. *)
Definition collected (p : PersistentState) : list ident :=
  omap (λ r, if validated r && negb (bool_decide (userId r = Null))
             then Some (userId r) else None)
    (records p).

(** All collected ids equal the first, compared as strings. *)
Definition allEqualFirst (ids : list ident) : Prop :=
  ∀ u, u ∈ ids → Some (String_ u) = String_ <$> head ids.

(** The two objects such a PersistentState is held in. *)
Definition flagsObject (p : PersistentState) : object bool :=
  let '(face, voice, retina, proximity) := p in
  Obj [("face", validated face); ("voice", validated voice);
       ("retina", validated retina); ("proximity", validated proximity)]
    true.

Definition idsObject (p : PersistentState) : object ident :=
  let '(face, voice, retina, proximity) := p in
  Obj [("face", userId face); ("voice", userId voice);
       ("retina", userId retina); ("proximity", userId proximity)]
    true.

End Spec.

(* ===================================================================== *)
(** ** The welcome animation script *)
(* ===================================================================== *)

(** [static/js/welcome-animation.js], the script the door animation hands
    over to.  Before it shows anything, [showWelcomeAnimation] calls
    [doValidatedBiometricsMatchSameUser], reads the stored identifiers for
    itself, and on a mismatch calls [resetBiometricValidations].  The page
    is taken with both scripts on it. *)

Module WelcomeAnimation.
Import Js BiometricAnimation.

(** What this script's timers run. *)
Inductive task :=
  | GoTo (url : string)
  | AddVisible
  | HideWelcomeAnimation
  | DisplayNone.

(** What the script does besides changing its variables and the stores:
    [console.error] lines (by their first argument), the alert it puts on
    top of the page, timers, and the engine sound. *)
Inductive effect :=
  | Error (msg : string)
  | IdentityAlert
  | Later (t : task) (ms : Z)
  | EngineSound.

(** The script's two variables that outlive a call, and what it has put
    in its container: the name and the car image of the last welcome,
    whether the container is displayed, and whether it carries the class
    [visible]. *)
Record welcome := Welcome {
  animationContainer : bool;
  userName : option string;
  content : option (string * string);
  display : bool;
  visible : bool
}.

(** Both scripts on one page. *)
Record page := Page {
  script : state;
  welcomeAnimation : welcome
}.

(** The page when the scripts have loaded and nothing has run. *)
Definition no_welcome : welcome := Welcome false None None false false.

(** [createAnimationContainer]: a new container, not displayed. *)
Definition createAnimationContainer (w : welcome) : welcome :=
  Welcome true (userName w) None false false.

(** [init]: the container is created unless the document has one. *)
Definition init (w : welcome) : welcome :=
  if animationContainer w then w else createAnimationContainer w.

(** [hideWelcomeAnimation] *)
Definition hideWelcomeAnimation (w : welcome) : welcome * list effect :=
  if animationContainer w
  then (Welcome true (userName w) (content w) (display w) false,
        [ Later DisplayNone 500 ])
  else (w, []).

(** [s.includes(key)] *)
Fixpoint includes (s key : string) : bool :=
  String.prefix key s
  || match s with
     | EmptyString => false
     | String _ s' => includes s' key
     end.

Definition generic_model : string :=
  "/static/images/vehicles/audi/animation/car-model.svg".

Definition modelMap : list (string * string) :=
  [ ("A6", "/static/images/vehicles/audi/animation/a6-model.svg");
    ("A7", "/static/images/vehicles/audi/animation/a7-model.svg");
    ("Q7", "/static/images/vehicles/audi/animation/q7-model.svg");
    ("Q8", "/static/images/vehicles/audi/animation/q8-model.svg");
    ("RS", "/static/images/vehicles/audi/animation/rs-model.svg");
    ("e-tron", "/static/images/vehicles/audi/animation/etron-model.svg") ].

(** The image [showWelcomeAnimation] picks: that of the first key of
    [modelMap] the vehicle model includes, the generic one when there is
    none or when no model (or an empty one) is passed. *)
Definition carSvgSrc (vehicleModel : option string) : string :=
  match vehicleModel with
  | Some model =>
      if String.eqb model "" then generic_model
      else match List.find (λ entry : string * string, includes model entry.1)
                   modelMap with
           | Some entry => entry.2
           | None => generic_model
           end
  | None => generic_model
  end.

(** What the script reads back from [localStorage] under
    [validatedUserIds]: the parsed value, [None] when nothing (or the
    empty string) is stored or the text does not parse, the latter with an
    error line. *)
Definition storedUserIds (s : state) : option json * list effect :=
  match localStorage s !! "validatedUserIds" with
  | Some (Json j) => (Some j, [])
  | Some (Raw t) =>
      if String.eqb t "" then (None, [])
      else (None,
            [ Error "[WELCOME ANIMATION] Error parsing validated user IDs:" ])
  | None => (None, [])
  end.

(** [Object.values(validatedUserIds).filter(id => id !== null)], for a
    truthy [validatedUserIds]. *)
Definition nonNullIds (j : json) : list json :=
  List.filter (λ id, match id with JNull => false | _ => true end)
    (default [] (json_values j)).

(** Equality as a [Set] sees it: primitives by value, while two parsed
    arrays or objects are never the same object. *)
Definition sameValueZero (a b : json) : bool :=
  match a, b with
  | JNull, JNull => true
  | JBool x, JBool y => bool_decide (x = y)
  | JNum x, JNum y => bool_decide (x = y)
  | JStr x, JStr y => bool_decide (x = y)
  | _, _ => false
  end.

(** [[...new Set(ids)]]: the first occurrence of each value, in order. *)
Definition uniqueIds (ids : list json) : list json :=
  fold_left (λ seen id,
               if existsb (λ other, sameValueZero other id) seen
               then seen else seen ++ [id])
    ids [].

(** The identifiers the security check of [showWelcomeAnimation] blocks
    on: more than one non-null value stored, and more than one different
    value among them. *)
Definition mismatchedIds (stored : option json) : option (list json) :=
  match stored with
  | Some j =>
      if json_truthy j && (1 <? length (nonNullIds j))%nat then
        let uniqueUserIds := uniqueIds (nonNullIds j) in
        if (1 <? length uniqueUserIds)%nat then Some uniqueUserIds else None
      else None
  | None => None
  end.

Definition violationDetails (now : string) (uniqueUserIds : list json)
  : json :=
  JObj [ ("timestamp", JStr now);
         ("component", JStr "welcome-animation");
         ("user_ids", JArr uniqueUserIds);
         ("reason",
          JStr "Mismatched user IDs detected in welcome animation") ].

(** [showWelcomeAnimation(name, vehicleModel = null)].  The last component
    tells whether the call returned [false], which it does when it blocks.
    The result of the first check is computed and not used. *)
Definition showWelcomeAnimation (name : string) (vehicleModel : option string)
    (p : page) : page * list effect * bool :=
  let '(biometricSecurityCheck, s) :=
    doValidatedBiometricsMatchSameUser (script p) in
  let '(validatedUserIds, es) := storedUserIds s in
  match mismatchedIds validatedUserIds with
  | Some uniqueUserIds =>
    let s := session_setItem "biometric_security_violation" true_text s in
    let s := session_setItem "biometric_security_violation_details"
               (Json (violationDetails (clock s) uniqueUserIds)) s in
    let s := resetBiometricValidations s in
    (Page s (welcomeAnimation p),
     es ++ [ Error
               "[WELCOME ANIMATION] SECURITY ALERT: Animation blocked due to mismatched user biometrics!";
             Error "[WELCOME ANIMATION] Multiple user IDs detected:";
             IdentityAlert;
             Later (GoTo home_with_violation) 3000 ],
     true)
  | None =>
    let w := welcomeAnimation p in
    let w := if animationContainer w then w else createAnimationContainer w in
    let w := Welcome true (Some name) (Some (name, carSvgSrc vehicleModel))
               true (visible w) in
    (Page s w,
     es ++ [ Later AddVisible 100; EngineSound;
             Later HideWelcomeAnimation 10000 ],
     false)
  end.

End WelcomeAnimation.

(* ===================================================================== *)
(** ** From the door animation to the welcome *)
(* ===================================================================== *)

Module Handover.
Import Js BiometricAnimation.

(** What the door animation does five seconds after the doors have opened
    (the inner timer of [showCarDoorAnimation]): it hides itself and, when
    the welcome script is on the page and its marker is not set in this
    session, shows the welcome and sets the marker.  The name and the
    vehicle model it passes are worked out from the cached user data,
    whose shape is set by pages outside these scripts; they are taken as
    given.  [available] tells whether [window.welcomeAnimation.show] is a
    function. *)
Definition afterDoorAnimation (available : bool) (ownerName : string)
    (vehicleModel : option string) (p : WelcomeAnimation.page)
  : WelcomeAnimation.page * list effect * list WelcomeAnimation.effect :=
  let '(s, es) := hideCarDoorAnimation (WelcomeAnimation.script p) in
  let p := WelcomeAnimation.Page s (WelcomeAnimation.welcomeAnimation p) in
  if available then
    if negb (item_truthy
               (sessionStorage s !! "has_shown_biometric_welcome"))
    then
      let '(p, ws, _) :=
        WelcomeAnimation.showWelcomeAnimation ownerName vehicleModel p in
      (WelcomeAnimation.Page
         (session_setItem "has_shown_biometric_welcome" true_text
            (WelcomeAnimation.script p))
         (WelcomeAnimation.welcomeAnimation p),
       es, ws)
    else (p, es, [])
  else (p, es, []).

End Handover.

(* ===================================================================== *)
(** ** Properties *)
(* ===================================================================== *)

Module Properties.
Import Js BiometricAnimation.

(** *** The language model at work *)

Example String_of_number_and_string : String_ (Num 7) = String_ (Str "7").
Proof. reflexivity. Qed.

Example strict_eq_number_and_string :
  strict_eq (Own (Num 7)) (Own (Str "7")) = false.
Proof. reflexivity. Qed.

Example lookups_on_the_default_object :
  get_prop default_flags "face" = Own false
  ∧ get_prop default_flags "toString" = Inherited "toString"
  ∧ get_prop default_flags "iris" = Undefined
  ∧ get_prop default_flags "0" = Undefined.
Proof. by vm_compute. Qed.

Example assignments_on_the_default_object :
  set_prop default_flags "voice" true
  = Obj [("face", false); ("voice", true); ("retina", false);
         ("proximity", false)] true
  ∧ set_prop default_flags "valueOf" true
    = Obj [("face", false); ("voice", false); ("retina", false);
           ("proximity", false); ("valueOf", true)] true
  ∧ set_prop default_flags "__proto__" true = default_flags
  ∧ set_prop default_ids "__proto__" Null = Obj (own default_ids) false.
Proof. by vm_compute. Qed.

(** *** Objects *)

Section Objects.
Context {A : Type} `{Primitive A}.
Implicit Types (l : list (string * A)) (o : object A) (k : string) (v : A).

Lemma assoc_update_eq l k v :
  is_Some (assoc l k) → assoc (update l k v) k = Some v.
Proof.
  induction l as [|[k' a] l IH]; simpl; intros [x Hx]; [done|].
  destruct (decide (k' = k)) as [->|Hne]; simpl.
  - by rewrite decide_True.
  - rewrite decide_False by done. apply IH. eauto.
Qed.

Lemma assoc_update_ne l k k' v :
  k ≠ k' → assoc (update l k v) k' = assoc l k'.
Proof.
  intros Hne. induction l as [|[k0 a] l IH]; simpl; [done|].
  destruct (decide (k0 = k)) as [->|Hk]; simpl.
  - by rewrite !decide_False.
  - destruct (decide (k0 = k')); [done|apply IH].
Qed.

Lemma assoc_app l l' k :
  assoc (l ++ l') k = match assoc l k with
                      | Some a => Some a
                      | None => assoc l' k
                      end.
Proof.
  induction l as [|[k0 a] l IH]; simpl; [done|].
  by destruct (decide (k0 = k)).
Qed.

Lemma assoc_fill l v k :
  assoc (prod_map id (λ _, v) <$> l) k = (λ _, v) <$> assoc l k.
Proof.
  induction l as [|[k0 a] l IH]; simpl; [done|].
  by destruct (decide (k0 = k)).
Qed.

Lemma elem_of_keys_assoc l k : k ∈ l.*1 → is_Some (assoc l k).
Proof.
  induction l as [|[k0 a0] l IH]; simpl.
  - by intros ?%elem_of_nil.
  - intros Hk. destruct (decide (k0 = k)); [eauto|].
    apply elem_of_cons in Hk as [->|Hk]; [done|by apply IH].
Qed.

(** Reading an own property. *)
Lemma get_prop_own o k a :
  get_prop o k = Own a ↔ assoc (own o) k = Some a.
Proof.
  unfold get_prop. destruct (assoc (own o) k).
  - split; congruence.
  - by destruct (linked o && _).
Qed.

(** An assignment does not disturb an own property under another name. *)
Lemma set_prop_other o k k' v :
  k ≠ k' → assoc (own (set_prop o k v)) k' = assoc (own o) k'.
Proof.
  intros Hne. unfold set_prop.
  destruct (assoc (own o) k) eqn:Hk; simpl.
  - by apply assoc_update_ne.
  - destruct (linked o && _); simpl; [done|].
    rewrite assoc_app. destruct (assoc (own o) k'); [done|].
    simpl. by rewrite decide_False.
Qed.

(** An assignment to an own property is read back. *)
Lemma set_prop_own o k v :
  is_Some (assoc (own o) k) → assoc (own (set_prop o k v)) k = Some v.
Proof.
  intros Hk. unfold set_prop. destruct Hk as [a Ha]. rewrite Ha. simpl.
  apply assoc_update_eq. eauto.
Qed.

Lemma fill_own o v k :
  assoc (own (fill v o)) k = (λ _, v) <$> assoc (own o) k.
Proof. apply assoc_fill. Qed.

Lemma fill_keys o v : keys (fill v o) = keys o.
Proof.
  unfold keys, fill. simpl. rewrite <- list_fmap_compose.
  apply list_fmap_ext. by intros ? [].
Qed.

Lemma fill_values o v a : a ∈ values (fill v o) → a = v.
Proof.
  unfold values, fill. simpl. rewrite <- list_fmap_compose.
  intros ([k a'] & -> & _)%list_elem_of_fmap. done.
Qed.

Lemma fill_fill o v : fill v (fill v o) = fill v o.
Proof.
  unfold fill. simpl. f_equal. rewrite <- list_fmap_compose.
  apply list_fmap_ext. by intros ? [].
Qed.

End Objects.

(** A stored object parses back to its properties. *)
Lemma mapM_decode {A} (enc : A → json) (dec : json → option A)
    (l : list (string * A)) :
  (∀ a, dec (enc a) = Some a) →
  mapM (λ kv : string * json, a ← dec kv.2; Some (kv.1, a))
    (prod_map id enc <$> l) = Some l.
Proof.
  intros Hdec. induction l as [|[k a] l IH]; [done|].
  rewrite fmap_cons. cbn [mapM]. simpl. rewrite Hdec. simpl.
  rewrite IH. done.
Qed.

Lemma parse_stringify {A} (enc : A → json) (dec : json → option A)
    (dflt o : object A) :
  (∀ a, dec (enc a) = Some a) →
  parse_or dec dflt (Some (stringify enc o)) = Some (Obj (own o) true).
Proof.
  intros Hdec. unfold parse_or, stringify. simpl.
  by rewrite (mapM_decode enc dec).
Qed.

Lemma bool_of_json_JBool b : bool_of_json (JBool b) = Some b.
Proof. done. Qed.

Lemma ident_of_json_of_ident u : ident_of_json (json_of_ident u) = Some u.
Proof. by destruct u. Qed.

(** *** The consistency check *)

Lemma checker_result s :
  (doValidatedBiometricsMatchSameUser s).1
  = (length (collectedUserIds s) <=? 1)%nat || allMatch (collectedUserIds s).
Proof.
  unfold doValidatedBiometricsMatchSameUser.
  destruct (length (collectedUserIds s) <=? 1)%nat; [done|].
  by destruct (allMatch (collectedUserIds s)).
Qed.

(** The check writes to [sessionStorage] at most. *)
Lemma checker_state s :
  ∃ ss, (doValidatedBiometricsMatchSameUser s).2 = with_sessionStorage ss s.
Proof.
  unfold doValidatedBiometricsMatchSameUser.
  destruct (length (collectedUserIds s) <=? 1)%nat;
    [|destruct (allMatch (collectedUserIds s))];
    try (exists (sessionStorage s); by destruct s).
  eexists. reflexivity.
Qed.

Lemma checker_marker s :
  (doValidatedBiometricsMatchSameUser s).1 = false →
  sessionStorage (doValidatedBiometricsMatchSameUser s).2
  = <["biometric_security_mismatch_ids" :=
        Json (JArr (json_of_ident <$> collectedUserIds s))]>
      (<["biometric_security_violation" := true_text]> (sessionStorage s)).
Proof.
  unfold doValidatedBiometricsMatchSameUser.
  destruct (length (collectedUserIds s) <=? 1)%nat; [done|].
  by destruct (allMatch (collectedUserIds s)).
Qed.

Lemma collected_ext s s' :
  validatedBiometrics s = validatedBiometrics s' →
  own (validatedUserIds s) = own (validatedUserIds s') →
  collectedUserIds s = collectedUserIds s'.
Proof. unfold collectedUserIds. by intros -> ->. Qed.

Lemma checker_ext s s' :
  validatedBiometrics s = validatedBiometrics s' →
  own (validatedUserIds s) = own (validatedUserIds s') →
  (doValidatedBiometricsMatchSameUser s).1
  = (doValidatedBiometricsMatchSameUser s').1.
Proof.
  intros Hv Hi. by rewrite !checker_result, (collected_ext s s').
Qed.

Lemma count_ext s s' :
  validatedBiometrics s = validatedBiometrics s' →
  countValidatedBiometrics s = countValidatedBiometrics s'.
Proof. unfold countValidatedBiometrics. by intros ->. Qed.

Lemma allMatch_spec ids :
  allMatch ids = true
  ↔ ∀ u, u ∈ ids → Some (String_ u) = String_ <$> head ids.
Proof.
  destruct ids as [|first ids]; simpl.
  - split; [|done]. by intros _ u ?%elem_of_nil.
  - rewrite bool_decide_true by done. simpl.
    rewrite forallb_forall. split.
    + intros Hall u [->|Hu]%elem_of_cons; [done|].
      apply list_elem_of_In, Hall, bool_decide_eq_true in Hu. by f_equal.
    + intros Hall u Hu. apply bool_decide_eq_true.
      assert (Some (String_ u) = Some (String_ first)) as [= ->]; [|done].
      apply Hall. right. by apply list_elem_of_In.
Qed.

(** *** Resetting *)

Lemma count_none (o : object bool) (l : list string) n :
  (∀ k, k ∈ l → slot_truthy (get_prop o k) = false) →
  fold_left (λ count type,
               if slot_truthy (get_prop o type) then S count else count)
    l n = n.
Proof.
  revert n. induction l as [|k l IH]; intros n Hl; simpl; [done|].
  rewrite (Hl k) by left. apply IH. intros k' Hk'. apply Hl. by right.
Qed.

Lemma count_reset s : countValidatedBiometrics (resetBiometricValidations s) = 0%nat.
Proof.
  unfold countValidatedBiometrics. simpl. apply count_none.
  intros k Hk. rewrite fill_keys in Hk.
  apply elem_of_keys_assoc in Hk as [b Hb].
  assert (get_prop (fill false (validatedBiometrics s)) k = Own false) as ->;
    [|done].
  apply get_prop_own. by rewrite fill_own, Hb.
Qed.

Lemma count_session_reset s :
  countSessionValidations (resetBiometricValidations s) = 0%nat.
Proof.
  unfold countSessionValidations, values. simpl.
  induction (own (sessionValidations s)) as [|[k b] l IH]; [done|apply IH].
Qed.

Lemma state_eq s s' :
  validatedBiometrics s = validatedBiometrics s' →
  sessionValidations s = sessionValidations s' →
  validatedUserIds s = validatedUserIds s' →
  animationVisible s = animationVisible s' →
  localStorage s = localStorage s' →
  sessionStorage s = sessionStorage s' →
  container s = container s' →
  overlay s = overlay s' →
  clock s = clock s' →
  s = s'.
Proof. destruct s, s'; simpl; intros; by subst. Qed.

Lemma reset_idempotent s :
  resetBiometricValidations (resetBiometricValidations s)
  = resetBiometricValidations s.
Proof.
  apply state_eq; simpl; rewrite ?fill_fill; try done.
  - apply map_eq; intros i.
    rewrite !lookup_delete, !lookup_insert, !lookup_delete, !lookup_insert.
    by repeat case_decide.
  - apply map_eq; intros i. rewrite !lookup_delete. by case_decide.
Qed.

Lemma collected_null s :
  (∀ u, u ∈ values (validatedUserIds s) → u = Null) →
  collectedUserIds s = [].
Proof.
  unfold collectedUserIds, values.
  induction (own (validatedUserIds s)) as [|[k u] l IH]; intros Hl; [done|].
  simpl. rewrite (Hl u) by left. simpl. rewrite andb_false_r.
  apply IH. intros u' Hu'. apply Hl. by right.
Qed.

Lemma consistent_reset s : consistent (resetBiometricValidations s).
Proof. left. rewrite count_reset. lia. Qed.

(** *** The store updates of [setBiometricValidated] *)

Lemma record_validated type isValidated userId s :
  validatedBiometrics (recordValidation type isValidated userId s)
  = set_prop (validatedBiometrics s) type isValidated.
Proof. unfold recordValidation. by destruct isValidated, userId. Qed.

Lemma record_session type isValidated userId s :
  sessionValidations (recordValidation type isValidated userId s)
  = if isValidated then set_prop (sessionValidations s) type true
    else sessionValidations s.
Proof. unfold recordValidation. by destruct isValidated, userId. Qed.

Lemma record_ids type isValidated userId s :
  validatedUserIds (recordValidation type isValidated userId s)
  = if isValidated
    then if is_null userId then validatedUserIds s
         else set_prop (validatedUserIds s) type userId
    else set_prop (validatedUserIds s) type Null.
Proof. unfold recordValidation. by destruct isValidated, userId. Qed.

Lemma record_animationVisible type isValidated userId s :
  animationVisible (recordValidation type isValidated userId s)
  = animationVisible s.
Proof. unfold recordValidation. by destruct isValidated, userId. Qed.

(** *** The decision of [setBiometricValidated] *)

Lemma show_enters userName s :
  entersShowCarDoorAnimation (showCarDoorAnimation userName s).2 = true.
Proof.
  unfold showCarDoorAnimation.
  destruct (doValidatedBiometricsMatchSameUser s) as [m s'].
  by destruct (negb m || someDiffers (biometricUserIds s')).
Qed.

(** The three ways a call for a type that passes the guard can go. *)
Lemma setBiometricValidated_cases type isValidated userId s :
  let s1 := recordValidation type isValidated userId s in
  let s2 := (doValidatedBiometricsMatchSameUser s1).2 in
  let doUsersMatch := (doValidatedBiometricsMatchSameUser s1).1 in
  is_defined (get_prop (validatedBiometrics s) type) = true →
  setBiometricValidated type isValidated userId s
  = if (2 <=? countValidatedBiometrics s1)%nat && negb (animationVisible s)
       && (negb (slot_truthy (get_prop (sessionValidations s) type))
           && isValidated)
       && (2 <=? countSessionValidations s1)%nat && doUsersMatch
    then showCarDoorAnimation None s2
    else if (2 <=? countValidatedBiometrics s1)%nat && negb doUsersMatch
    then securityViolation s2
    else (s2, []).
Proof.
  intros s1 s2 doUsersMatch Hdef. unfold setBiometricValidated.
  rewrite Hdef. fold s1. subst s2 doUsersMatch.
  destruct (checker_state s1) as [ss Hss].
  destruct (doValidatedBiometricsMatchSameUser s1) as [m s2]. simpl in *.
  subst s2.
  change (animationVisible (with_sessionStorage ss s1))
    with (animationVisible s1).
  unfold s1 at 2. by rewrite record_animationVisible.
Qed.

Lemma setBiometricValidated_unknown type isValidated userId s :
  is_defined (get_prop (validatedBiometrics s) type) = false →
  setBiometricValidated type isValidated userId s
  = (s, [ ConsoleError ("Unknown biometric type: " ++ type) None ]).
Proof. intros Hdef. unfold setBiometricValidated. by rewrite Hdef. Qed.

(** C3. From a clean session, validating face and then retina for user
    "42" enters the animation on the second call and not on the first, and
    a repeated validation of face does not enter it again, whether the
    overlay is still up or already hidden.  In general a call enters
    [showCarDoorAnimation] exactly when its type passes the guard and,
    after the store updates, two factors are validated, the animation is
    not visible, the type was not session-validated before and the call
    validates it, two session flags are set, and the consistency check
    returns true. *)
Theorem animation_trigger_iff :
  (∀ now,
     let r1 := setBiometricValidated "face" true (Str "42") (initial now) in
     let r2 := setBiometricValidated "retina" true (Str "42") r1.1 in
     let r3 := setBiometricValidated "face" true (Str "42") r2.1 in
     let r3' := setBiometricValidated "face" true (Str "42")
                  (with_animationVisible false r2.1) in
     entersShowCarDoorAnimation r1.2 = false
     ∧ r2.2 = [ Fetch "/static/images/vehicles/audi/animation/car-doors.svg"
                  None ]
     ∧ animationVisible r2.1 = true
     ∧ entersShowCarDoorAnimation r3.2 = false
     ∧ entersShowCarDoorAnimation r3'.2 = false)
  ∧ (∀ type isValidated userId s,
       let s1 := recordValidation type isValidated userId s in
       entersShowCarDoorAnimation
         (setBiometricValidated type isValidated userId s).2 = true
       ↔ is_defined (get_prop (validatedBiometrics s) type) = true
         ∧ (2 ≤ countValidatedBiometrics s1)%nat
         ∧ animationVisible s = false
         ∧ (slot_truthy (get_prop (sessionValidations s) type) = false
            ∧ isValidated = true)
         ∧ (2 ≤ countSessionValidations s1)%nat
         ∧ (doValidatedBiometricsMatchSameUser s1).1 = true).
Proof.
  split.
  - intros now. vm_compute. done.
  - intros type isValidated userId s s1.
    destruct (is_defined (get_prop (validatedBiometrics s) type)) eqn:Hdef.
    + rewrite setBiometricValidated_cases by done. fold s1.
      rewrite <- !Nat.leb_le, <- negb_true_iff.
      rewrite <- (negb_true_iff (slot_truthy _)).
      rewrite <- !andb_true_iff, !andb_assoc, andb_true_l.
      destruct (_ && _ && _ && _ && _ && _) eqn:Hgo.
      * rewrite show_enters. tauto.
      * destruct ((2 <=? countValidatedBiometrics s1)%nat
                  && negb (doValidatedBiometricsMatchSameUser s1).1);
          simpl; tauto.
    + rewrite setBiometricValidated_unknown by done. simpl. split; [done|].
      by intros [? _].
Qed.

(** *** What every step keeps *)

Lemma linked_set_prop (o : object bool) k v :
  linked o = true → linked (set_prop o k v) = true.
Proof.
  intros Ho. unfold set_prop. destruct (assoc (own o) k); simpl; [done|].
  by destruct (linked o && _).
Qed.

Lemma sameRecords_trans s1 s2 s3 :
  sameRecords s1 s2 → sameRecords s2 s3 → sameRecords s1 s3.
Proof.
  intros (?&?&?&?) (?&?&?&?). repeat split; etrans; eauto.
Qed.

Lemma sameRecords_checker s :
  sameRecords s (doValidatedBiometricsMatchSameUser s).2.
Proof. destruct (checker_state s) as [ss ->]. by repeat split. Qed.

Lemma kept_ext s s' : sameRecords s s' → kept s → kept s'.
Proof.
  intros (Hv & Hs & Hi & Hl) [].
  split; unfold noStaleIdentity; rewrite <- ?Hv, <- ?Hs, <- ?Hi, <- ?Hl; done.
Qed.

Lemma consistent_same s s' :
  validatedBiometrics s = validatedBiometrics s' →
  own (validatedUserIds s) = own (validatedUserIds s') →
  consistent s → consistent s'.
Proof.
  intros Hv Hi. unfold consistent.
  by rewrite (count_ext s s'), (checker_ext s s').
Qed.

Lemma consistent_ext s s' : sameRecords s s' → consistent s → consistent s'.
Proof. intros (Hv & _ & Hi & _). apply consistent_same; [done|by rewrite Hi]. Qed.

Lemma invariant_ext s s' : sameRecords s s' → invariant s → invariant s'.
Proof.
  intros Hss [??]. split; [by apply (kept_ext s)|by apply (consistent_ext s)].
Qed.

Lemma record_stored_validated type isValidated userId s :
  localStorage (recordValidation type isValidated userId s)
    !! "validatedBiometrics"
  = Some (stringify JBool
            (validatedBiometrics (recordValidation type isValidated userId s))).
Proof.
  unfold recordValidation. destruct isValidated, userId; simpl;
    by simplify_map_eq.
Qed.

Lemma record_stored_session type isValidated userId s :
  localStorage (recordValidation type isValidated userId s)
    !! "sessionValidations"
  = Some (stringify JBool
            (sessionValidations (recordValidation type isValidated userId s))).
Proof.
  unfold recordValidation. destruct isValidated, userId; simpl;
    by simplify_map_eq.
Qed.

Lemma record_stored_ids type isValidated userId s :
  localStorage (recordValidation type isValidated userId s)
    !! "validatedUserIds"
  = if isValidated && is_null userId
    then localStorage s !! "validatedUserIds"
    else Some (stringify json_of_ident
                 (validatedUserIds
                    (recordValidation type isValidated userId s))).
Proof.
  unfold recordValidation. destruct isValidated, userId; simpl;
    by simplify_map_eq.
Qed.

Lemma noStale_record type isValidated userId s :
  noStaleIdentity s →
  noStaleIdentity (recordValidation type isValidated userId s).
Proof.
  intros Hs f Hf. destruct (Hs f Hf) as (b & u & Hb & Hu & Hbu).
  apply get_prop_own in Hb. apply get_prop_own in Hu.
  rewrite record_validated, record_ids.
  destruct (decide (type = f)) as [->|Hne].
  - exists isValidated.
    destruct isValidated; [destruct (is_null userId) eqn:Hnull|].
    + exists u. rewrite !get_prop_own, set_prop_own by eauto. done.
    + exists userId. rewrite !get_prop_own, !set_prop_own by eauto. done.
    + exists Null. rewrite !get_prop_own, !set_prop_own by eauto. done.
  - exists b, u. rewrite !get_prop_own, set_prop_other by done.
    split; [done|]. split; [|done].
    destruct isValidated; [destruct (is_null userId)|];
      by rewrite ?set_prop_other.
Qed.

Lemma kept_record type isValidated userId s :
  kept s → kept (recordValidation type isValidated userId s).
Proof.
  intros [Hl1 Hl2 Hm1 Hm2 Hm3 Hid]. split.
  - rewrite record_validated. by apply linked_set_prop.
  - rewrite record_session. destruct isValidated; [|done].
    by apply linked_set_prop.
  - by rewrite record_stored_validated.
  - by rewrite record_stored_session.
  - rewrite record_stored_ids, record_ids.
    destruct isValidated; [destruct (is_null userId)|]; done.
  - by apply noStale_record.
Qed.

Lemma kept_reset s : kept s → kept (resetBiometricValidations s).
Proof.
  intros [Hl1 Hl2 _ _ _ Hid]. split; simpl; try done.
  - by simplify_map_eq.
  - by simplify_map_eq.
  - by simplify_map_eq.
  - intros f Hf. destruct (Hid f Hf) as (b & u & Hb & Hu & _).
    apply get_prop_own in Hb. apply get_prop_own in Hu.
    exists false, Null. simpl. rewrite !get_prop_own, !fill_own, Hb, Hu. done.
Qed.

Lemma invariant_reset s : kept s → invariant (resetBiometricValidations s).
Proof. split; [by apply kept_reset|apply consistent_reset]. Qed.

(** [showCarDoorAnimation] either resets, after a note in
    [sessionStorage], or leaves the three variables alone. *)
Lemma show_cases userName s :
  (∃ s', sameRecords s s'
         ∧ (showCarDoorAnimation userName s).1 = resetBiometricValidations s'
         ∧ entersSecurityViolation (showCarDoorAnimation userName s).2 = true)
  ∨ (sameRecords s (showCarDoorAnimation userName s).1
     ∧ animationVisible (showCarDoorAnimation userName s).1 = true
     ∧ (showCarDoorAnimation userName s).2
       = [ Fetch "/static/images/vehicles/audi/animation/car-doors.svg"
             userName ]).
Proof.
  unfold showCarDoorAnimation.
  pose proof (sameRecords_checker s) as Hs.
  destruct (doValidatedBiometricsMatchSameUser s) as [m s']. simpl in Hs.
  destruct (negb m || someDiffers (biometricUserIds s')).
  - left. eexists. split; [|split; reflexivity].
    eapply sameRecords_trans; [exact Hs|]. by repeat split.
  - right. split; [|done].
    eapply sameRecords_trans; [exact Hs|].
    unfold createAnimationContainer. by destruct (container s').
Qed.

Lemma invariant_show userName s :
  invariant s → invariant (showCarDoorAnimation userName s).1.
Proof.
  intros Hs. destruct (show_cases userName s) as [(s' & Hss & -> & _)|[Hss _]].
  - apply invariant_reset, (kept_ext s); [done|apply Hs].
  - by apply (invariant_ext s).
Qed.

Lemma securityViolation_state s :
  ∃ s', sameRecords s s'
        ∧ (securityViolation s).1 = resetBiometricValidations s'.
Proof. eexists. split; [|reflexivity]. by repeat split. Qed.

Lemma invariant_setBiometricValidated type isValidated userId s :
  invariant s → invariant (setBiometricValidated type isValidated userId s).1.
Proof.
  intros [Hk Hc].
  destruct (is_defined (get_prop (validatedBiometrics s) type)) eqn:Hdef;
    [|by rewrite setBiometricValidated_unknown].
  rewrite setBiometricValidated_cases by done.
  set (s1 := recordValidation type isValidated userId s).
  pose proof (kept_record type isValidated userId s Hk) as Hk1. fold s1 in Hk1.
  pose proof (sameRecords_checker s1) as Hs12.
  assert (kept (doValidatedBiometricsMatchSameUser s1).2) as Hk2
    by by apply (kept_ext s1).
  destruct (_ && _ && _ && _ && _) eqn:Hgo.
  - apply invariant_show. split; [done|].
    apply (consistent_ext s1); [done|]. right.
    by apply andb_true_iff in Hgo as [_ ?].
  - destruct ((2 <=? countValidatedBiometrics s1)%nat
              && negb (doValidatedBiometricsMatchSameUser s1).1) eqn:Hbad.
    + destruct (securityViolation_state (doValidatedBiometricsMatchSameUser s1).2)
        as (s' & Hss & ->).
      apply invariant_reset. by apply (kept_ext _ _ Hss).
    + split; [done|]. apply (consistent_ext s1); [done|].
      apply andb_false_iff in Hbad as [Hn|Hm].
      * left. apply Nat.leb_gt in Hn. lia.
      * right. by apply negb_false_iff.
Qed.

Lemma invariant_setSessionValidation type isValidated s :
  invariant s → invariant (setSessionValidation type isValidated s).2.
Proof.
  intros [[Hl1 Hl2 Hm1 Hm2 Hm3 Hid] Hc]. unfold setSessionValidation.
  destruct (is_defined _); [|done].
  split; [split|by apply (consistent_same s)]; simpl; try done.
  - by apply linked_set_prop.
  - by simplify_map_eq.
  - by simplify_map_eq.
  - by simplify_map_eq.
Qed.

Lemma invariant_resetSessionValidations s :
  invariant s → invariant (resetSessionValidations s).
Proof.
  intros [[Hl1 Hl2 Hm1 Hm2 Hm3 Hid] Hc].
  split; [split|by apply (consistent_same s)]; simpl; try done;
    by simplify_map_eq.
Qed.

Lemma sameRecords_hide s : sameRecords s (hideCarDoorAnimation s).1.
Proof.
  unfold hideCarDoorAnimation. destruct (container s); by repeat split.
Qed.

Lemma sameRecords_welcome available s :
  sameRecords s (welcomeTransition available s).1.
Proof.
  unfold welcomeTransition. pose proof (sameRecords_hide s) as Hs.
  destruct (hideCarDoorAnimation s) as [s' es]. simpl in Hs.
  destruct (available && _); [|done].
  eapply sameRecords_trans; [exact Hs|]. by repeat split.
Qed.

Lemma sameRecords_createAnimationContainer s :
  sameRecords s (createAnimationContainer s).
Proof.
  unfold createAnimationContainer. destruct (container s); by repeat split.
Qed.

Lemma onDOMContentLoaded_state s s' es :
  onDOMContentLoaded s = Some (s', es) → s' = createAnimationContainer s.
Proof.
  unfold onDOMContentLoaded.
  destruct (storedSessionCount _); simpl; [|done].
  destruct (_ && _); by intros [= <- _].
Qed.

Lemma invariant_onDOMContentLoaded s s' es :
  onDOMContentLoaded s = Some (s', es) → invariant s → invariant s'.
Proof.
  intros ->%onDOMContentLoaded_state.
  apply invariant_ext, sameRecords_createAnimationContainer.
Qed.

(** A stored copy that [mirrors] a variable parses back to it. *)
Lemma parse_mirror {A} (enc : A → json) (dec : json → option A)
    (dflt o : object A) item :
  (∀ a, dec (enc a) = Some a) → linked dflt = true →
  mirrors enc dflt o item →
  parse_or dec dflt item = Some (Obj (own o) true).
Proof.
  intros Hdec Hdflt. destruct item as [t|]; simpl.
  - intros ->. by apply (parse_stringify enc dec dflt).
  - intros ->. destruct dflt; simpl in *; by subst.
Qed.

Lemma linked_eta {A} (o : object A) : linked o = true → Obj (own o) true = o.
Proof. destruct o; simpl; by intros ->. Qed.

(** Loading the script again finds the three variables as they were. *)
Lemma load_kept s ss now :
  kept s →
  load (localStorage s) ss now
  = Some (State (validatedBiometrics s) (sessionValidations s)
            (Obj (own (validatedUserIds s)) true) false
            (localStorage s) ss false false now).
Proof.
  intros [Hl1 Hl2 Hm1 Hm2 Hm3 _]. unfold load.
  rewrite (parse_mirror JBool bool_of_json default_flags _ _
             bool_of_json_JBool eq_refl Hm1).
  rewrite (parse_mirror JBool bool_of_json default_flags _ _
             bool_of_json_JBool eq_refl Hm2).
  rewrite (parse_mirror json_of_ident ident_of_json default_ids _ _
             ident_of_json_of_ident eq_refl Hm3).
  simpl. by rewrite (linked_eta _ Hl1), (linked_eta _ Hl2).
Qed.

Lemma invariant_load s ss now s' :
  load (localStorage s) ss now = Some s' → invariant s → invariant s'.
Proof.
  intros Hload [Hk Hc]. rewrite load_kept in Hload by done.
  injection Hload as <-. destruct Hk as [Hl1 Hl2 Hm1 Hm2 Hm3 Hid].
  split; [split|]; simpl; try done.
  - intros f Hf. destruct (Hid f Hf) as (b & u & Hb & Hu & Hbu).
    exists b, u. split; [done|]. split; [|done].
    apply get_prop_own. by apply get_prop_own in Hu.
  - by apply (consistent_same s).
Qed.

Lemma invariant_fire t s s' es :
  fire t s = Some (s', es) → invariant s → invariant s'.
Proof.
  destruct t; simpl.
  - destruct (load _ _ _) as [s0|] eqn:Hload; simpl; [|done].
    intros Hdom Hs. eapply invariant_onDOMContentLoaded; [done|].
    by eapply invariant_load.
  - destruct (load _ _ _) as [s0|] eqn:Hload; simpl; [|done].
    intros Hdom Hs. eapply invariant_onDOMContentLoaded; [done|].
    by eapply invariant_load.
  - intros [= Heq]. apply (f_equal fst) in Heq. simpl in Heq. subst s'.
    apply invariant_show.
  - intros [= <- _]. by apply invariant_ext.
Qed.

Lemma invariant_initial now : invariant (initial now).
Proof.
  split; [split|]; try done.
  - intros f Hf. exists false, Null.
    repeat (apply elem_of_cons in Hf as [->|Hf]; [done|]).
    by apply elem_of_nil in Hf.
  - by left; vm_compute; lia.
Qed.

Lemma invariant_step s s' : step s s' → invariant s → invariant s'.
Proof.
  destruct 1.
  - apply invariant_setBiometricValidated.
  - apply invariant_setSessionValidation.
  - intros [Hk _]. by apply invariant_reset.
  - apply invariant_resetSessionValidations.
  - apply invariant_show.
  - apply invariant_ext, sameRecords_hide.
  - by apply invariant_ext.
  - apply invariant_ext, sameRecords_welcome.
  - by eapply invariant_onDOMContentLoaded.
  - by eapply invariant_fire.
  - by eapply invariant_load.
  - by eapply invariant_load.
  - by apply invariant_ext.
Qed.

Lemma reachable_invariant s : reachable s → invariant s.
Proof.
  induction 1 as [now|s s' _ IH Hstep].
  - apply invariant_initial.
  - by apply (invariant_step s).
Qed.

(** *** Identifiers of two kinds, sessions, the reset, unknown types *)

(** C1. The code at the claim's input: face validated for the number 7,
    then voice for the string "7", from a first visit.  The first call
    starts no flow.  On the second call the consistency check, which
    compares as strings, accepts the pair, so the call goes into
    [showCarDoorAnimation]; there the identifiers are compared again with
    [!==], the number and the string differ, and the security-violation
    flow runs: the marker is stored, everything is reset and the redirect
    is scheduled. *)
Theorem number_then_string_is_blocked now :
  let r1 := setBiometricValidated "face" true (Num 7) (initial now) in
  let s1 := recordValidation "voice" true (Str "7") r1.1 in
  let r2 := setBiometricValidated "voice" true (Str "7") r1.1 in
  r1.2 = []
  ∧ (doValidatedBiometricsMatchSameUser s1).1 = true
  ∧ biometricUserIds s1 = [Own (Num 7); Own (Str "7")]
  ∧ someDiffers (biometricUserIds s1) = true
  ∧ r2.2 = [ ConsoleError
               "SECURITY ALERT: Car door animation blocked due to mismatched user biometrics!"
               None;
             ConsoleError "Security violation details:"
               (Some (Json (mismatchInfo s1)));
             MismatchAlert;
             SetTimeout (DismissAlertAndRedirect home_with_violation) 3000 ]
  ∧ sessionStorage r2.1 !! "biometric_security_violation" = Some true_text
  ∧ validatedBiometrics r2.1 = default_flags
  ∧ sessionValidations r2.1 = default_flags
  ∧ validatedUserIds r2.1 = default_ids.
Proof. vm_compute. repeat split. Qed.

(** C4. The session flags are written to [localStorage], under
    [sessionValidations], and never to [sessionStorage]; so they are still
    there when the session has ended.  From any state the script can be in,
    the next session loads with the very same session flags; after face
    and voice were validated for user "1", the next session starts with
    both flags set and its page-load handler schedules the animation. *)
Theorem session_flags_outlive_the_session :
  (∀ s, reachable s →
     localStorage s !! "sessionValidations" ≠ None →
     localStorage s !! "sessionValidations"
     = Some (stringify JBool (sessionValidations s)))
  ∧ (∀ s now, reachable s →
       ∃ s', nextSession s now = Some s'
             ∧ sessionStorage s' = ∅
             ∧ sessionValidations s' = sessionValidations s)
  ∧ (∀ now now',
       let s := (setBiometricValidated "voice" true (Str "1")
                   (setBiometricValidated "face" true (Str "1")
                      (initial now)).1).1 in
       sessionStorage s !! "sessionValidations" = None
       ∧ ∃ s', nextSession s now' = Some s'
               ∧ sessionStorage s' = ∅
               ∧ get_prop (sessionValidations s') "face" = Own true
               ∧ get_prop (sessionValidations s') "voice" = Own true
               ∧ onDOMContentLoaded s'
                 = Some (createAnimationContainer s',
                         [ SetTimeout ShowCarDoorAnimation 500 ])).
Proof.
  split; [|split].
  - intros s [[_ _ _ Hm _ _] _]%reachable_invariant Hsome.
    destruct (localStorage s !! "sessionValidations"); [|done].
    simpl in Hm. by rewrite Hm.
  - intros s now [Hk _]%reachable_invariant. eexists.
    unfold nextSession. rewrite load_kept by done. done.
  - intros now now'. split; [done|]. eexists. split; [by vm_compute|].
    by vm_compute.
Qed.

(** C8. [resetBiometricValidations] leaves every validated flag false,
    every session flag false and every identifier null, under the same
    keys as before; the animation is marked hidden; the welcome marker and
    the cached user data are gone from the stores, and the stored copies
    are those of the zeroed variables.  Resetting a second time changes
    nothing, in the variables or in either store. *)
Theorem reset_zeroes_and_is_idempotent s :
  let r := resetBiometricValidations s in
  (validatedBiometrics r = fill false (validatedBiometrics s)
   ∧ ∀ b, b ∈ values (validatedBiometrics r) → b = false)
  ∧ (sessionValidations r = fill false (sessionValidations s)
     ∧ ∀ b, b ∈ values (sessionValidations r) → b = false)
  ∧ (validatedUserIds r = fill Null (validatedUserIds s)
     ∧ ∀ u, u ∈ values (validatedUserIds r) → u = Null)
  ∧ (keys (validatedBiometrics r) = keys (validatedBiometrics s)
     ∧ keys (sessionValidations r) = keys (sessionValidations s)
     ∧ keys (validatedUserIds r) = keys (validatedUserIds s))
  ∧ animationVisible r = false
  ∧ sessionStorage r !! "has_shown_biometric_welcome" = None
  ∧ localStorage r !! "validatedUserData" = None
  ∧ (localStorage r !! "validatedBiometrics"
     = Some (stringify JBool (validatedBiometrics r))
     ∧ localStorage r !! "sessionValidations"
       = Some (stringify JBool (sessionValidations r))
     ∧ localStorage r !! "validatedUserIds"
       = Some (stringify json_of_ident (validatedUserIds r)))
  ∧ countValidatedBiometrics r = 0%nat
  ∧ countSessionValidations r = 0%nat
  ∧ resetBiometricValidations r = r.
Proof.
  intros r. subst r. split_and!.
  - done.
  - intros b. apply fill_values.
  - done.
  - intros b. apply fill_values.
  - done.
  - intros u. apply fill_values.
  - apply fill_keys.
  - apply fill_keys.
  - apply fill_keys.
  - done.
  - simpl. by simplify_map_eq.
  - simpl. by simplify_map_eq.
  - simpl. by simplify_map_eq.
  - simpl. by simplify_map_eq.
  - simpl. by simplify_map_eq.
  - apply count_reset.
  - apply count_session_reset.
  - apply reset_idempotent.
Qed.

(** C9. The code at a type that is no factor but the name of a property
    every object inherits: [validatedBiometrics["toString"]] is a function,
    so the guard lets the call through.  From a first visit the call logs
    no error and adds a property to all three variables and to the stored
    copies.  After face was validated for user "1", the same call for user
    "2" counts as a second validated factor with another user: it runs the
    security-violation flow and face ends up unvalidated.  A type that
    reads as [undefined] is refused as the claim says. *)
Theorem inherited_name_passes_for_a_factor :
  (∀ now,
     let r := setBiometricValidated "toString" true (Str "1") (initial now) in
     r.2 = []
     ∧ get_prop (validatedBiometrics (initial now)) "toString"
       = Inherited "toString"
     ∧ get_prop (validatedBiometrics r.1) "toString" = Own true
     ∧ get_prop (sessionValidations r.1) "toString" = Own true
     ∧ get_prop (validatedUserIds r.1) "toString" = Own (Str "1")
     ∧ countValidatedBiometrics r.1 = 1%nat
     ∧ localStorage r.1 !! "validatedBiometrics"
       = Some (Json (JObj [("face", JBool false); ("voice", JBool false);
                           ("retina", JBool false);
                           ("proximity", JBool false);
                           ("toString", JBool true)])))
  ∧ (∀ now,
       let s := (setBiometricValidated "face" true (Str "1")
                   (initial now)).1 in
       let r := setBiometricValidated "toString" true (Str "2") s in
       get_prop (validatedBiometrics s) "face" = Own true
       ∧ r.2 = [ ConsoleError
                   "Security violation details - Mismatched biometric user IDs:"
                   (Some (Json (JObj [("face", JStr "1");
                                      ("toString", JStr "2")])));
                 SecurityAlert;
                 SetTimeout (Redirect home_with_violation) 3000 ]
       ∧ get_prop (validatedBiometrics r.1) "face" = Own false
       ∧ get_prop (validatedUserIds r.1) "face" = Own Null)
  ∧ (∀ type isValidated userId s,
       get_prop (validatedBiometrics s) type = Undefined →
       setBiometricValidated type isValidated userId s
       = (s, [ ConsoleError ("Unknown biometric type: " ++ type) None ])).
Proof.
  split; [|split].
  - intros now. vm_compute. repeat split.
  - intros now. vm_compute. repeat split.
  - intros type isValidated userId s Hundef.
    apply setBiometricValidated_unknown. by rewrite Hundef.
Qed.

(** A call for a type that passes the guard ends in one of two ways: a
    security-violation flow, which resets, or the state as the store
    updates left it, up to the marker, the overlay and the animation
    flag. *)
Lemma setBiometricValidated_outcome type isValidated userId s :
  let s1 := recordValidation type isValidated userId s in
  let r := setBiometricValidated type isValidated userId s in
  is_defined (get_prop (validatedBiometrics s) type) = true →
  (∃ s', sameRecords s1 s' ∧ r.1 = resetBiometricValidations s'
         ∧ entersSecurityViolation r.2 = true)
  ∨ (sameRecords s1 r.1 ∧ entersSecurityViolation r.2 = false).
Proof.
  intros s1 r Hdef. subst r. rewrite setBiometricValidated_cases by done.
  fold s1. pose proof (sameRecords_checker s1) as Hs12.
  destruct (_ && _ && _ && _ && _).
  - destruct (show_cases None (doValidatedBiometricsMatchSameUser s1).2)
      as [(s' & Hss & Hr & He)|(Hss & _ & He)].
    + left. exists s'. split; [|done]. by eapply sameRecords_trans.
    + right. rewrite He. split; [|done]. by eapply sameRecords_trans.
  - destruct ((2 <=? countValidatedBiometrics s1)%nat
              && negb (doValidatedBiometricsMatchSameUser s1).1).
    + left.
      destruct (securityViolation_state (doValidatedBiometricsMatchSameUser s1).2)
        as (s' & Hss & Hr).
      exists s'. split; [by eapply sameRecords_trans|done].
    + by right.
Qed.

Lemma noStale_same s s' :
  validatedBiometrics s = validatedBiometrics s' →
  validatedUserIds s = validatedUserIds s' →
  noStaleIdentity s → noStaleIdentity s'.
Proof. unfold noStaleIdentity. by intros <- <-. Qed.

Lemma noStale_reset s :
  noStaleIdentity s → noStaleIdentity (resetBiometricValidations s).
Proof.
  intros Hid f Hf. destruct (Hid f Hf) as (b & u & Hb & Hu & _).
  apply get_prop_own in Hb. apply get_prop_own in Hu.
  exists false, Null. simpl. rewrite !get_prop_own, !fill_own, Hb, Hu. done.
Qed.

Lemma noStale_setBiometricValidated type isValidated userId s :
  noStaleIdentity s →
  noStaleIdentity (setBiometricValidated type isValidated userId s).1.
Proof.
  intros Hid.
  destruct (is_defined (get_prop (validatedBiometrics s) type)) eqn:Hdef;
    [|by rewrite setBiometricValidated_unknown].
  pose proof (noStale_record type isValidated userId s Hid) as Hid1.
  destruct (setBiometricValidated_outcome type isValidated userId s Hdef)
    as [(s' & (Hv & _ & Hi & _) & -> & _)|[(Hv & _ & Hi & _) _]].
  - apply noStale_reset. by eapply noStale_same.
  - by eapply noStale_same.
Qed.

(** C5. The stored identifier of a factor is non-null only when the
    factor is validated: this holds in every state the script gets into
    from a first visit (across reloads and sessions), it holds at a first
    visit, each of [setBiometricValidated], [resetBiometricValidations] and
    [resetSessionValidations] preserves it from any state, and invalidating
    a factor leaves its identifier null and its flag false whatever they
    were. *)
Theorem no_stale_identity :
  (∀ s, reachable s → noStaleIdentity s)
  ∧ (∀ now, noStaleIdentity (initial now))
  ∧ (∀ s, noStaleIdentity s →
       (∀ type isValidated userId,
          noStaleIdentity (setBiometricValidated type isValidated userId s).1)
       ∧ noStaleIdentity (resetBiometricValidations s)
       ∧ noStaleIdentity (resetSessionValidations s))
  ∧ (∀ s f userId,
       noStaleIdentity s → f ∈ factors →
       let s' := (setBiometricValidated f false userId s).1 in
       get_prop (validatedUserIds s') f = Own Null
       ∧ get_prop (validatedBiometrics s') f = Own false).
Proof.
  split; [|split; [|split]].
  - intros s Hs. apply reachable_invariant in Hs as [[] _]. done.
  - intros now. apply (invariant_initial now).
  - intros s Hid. split; [|split].
    + intros. by apply noStale_setBiometricValidated.
    + by apply noStale_reset.
    + by apply (noStale_same s).
  - intros s f userId Hid Hf s'. subst s'.
    destruct (Hid f Hf) as (b & u & Hb & Hu & _).
    assert (is_defined (get_prop (validatedBiometrics s) f) = true) as Hdef
      by by rewrite Hb.
    apply get_prop_own in Hb. apply get_prop_own in Hu.
    assert (get_prop (validatedUserIds (recordValidation f false userId s)) f
            = Own Null
            ∧ get_prop (validatedBiometrics
                          (recordValidation f false userId s)) f
              = Own false) as [Hu1 Hb1].
    { rewrite record_ids, record_validated, !get_prop_own.
      rewrite !set_prop_own by eauto. done. }
    destruct (setBiometricValidated_outcome f false userId s Hdef)
      as [(s1 & (Hv & _ & Hi & _) & -> & _)|[(Hv & _ & Hi & _) _]].
    + simpl. rewrite <- Hv, <- Hi.
      apply get_prop_own in Hu1. apply get_prop_own in Hb1.
      rewrite !get_prop_own, !fill_own, Hu1, Hb1. done.
    + by rewrite <- Hv, <- Hi.
Qed.

(** C2. When a call to [setBiometricValidated], for a type that passes
    the guard or from any state the script can be in, leaves two or more
    factors validated and the consistency check reports a mismatch, that
    call runs the security-violation flow: the marker, the mismatched ids
    and the per-type details are in [sessionStorage], every validated flag
    is false and every identifier null afterwards, in the variables and in
    their stored copies, and the redirect to the home page with the
    violation flag is scheduled 3000 ms later; the animation is not
    entered. *)
Theorem mismatch_runs_security_violation type isValidated userId s :
  let s1 := afterUpdate type isValidated userId s in
  let r := setBiometricValidated type isValidated userId s in
  is_defined (get_prop (validatedBiometrics s) type) = true ∨ reachable s →
  (2 ≤ countValidatedBiometrics s1)%nat →
  (doValidatedBiometricsMatchSameUser s1).1 = false →
  r.2 = [ ConsoleError
            "Security violation details - Mismatched biometric user IDs:"
            (Some (Json (userIdsByType s1)));
          SecurityAlert;
          SetTimeout (Redirect home_with_violation) 3000 ]
  ∧ sessionStorage r.1 !! "biometric_security_violation" = Some true_text
  ∧ sessionStorage r.1 !! "biometric_security_mismatch_ids"
    = Some (Json (JArr (json_of_ident <$> collectedUserIds s1)))
  ∧ sessionStorage r.1 !! "biometric_security_violation_details"
    = Some (Json (userIdsByType s1))
  ∧ validatedBiometrics r.1 = fill false (validatedBiometrics s1)
  ∧ sessionValidations r.1 = fill false (sessionValidations s1)
  ∧ validatedUserIds r.1 = fill Null (validatedUserIds s1)
  ∧ (∀ k, k ∈ keys (validatedBiometrics s1) →
          get_prop (validatedBiometrics r.1) k = Own false)
  ∧ (∀ k, k ∈ keys (validatedUserIds s1) →
          get_prop (validatedUserIds r.1) k = Own Null)
  ∧ localStorage r.1 !! "validatedBiometrics"
    = Some (stringify JBool (validatedBiometrics r.1))
  ∧ localStorage r.1 !! "validatedUserIds"
    = Some (stringify json_of_ident (validatedUserIds r.1))
  ∧ entersShowCarDoorAnimation r.2 = false.
Proof.
  intros s1 r Hpre Hcount Hmis.
  assert (is_defined (get_prop (validatedBiometrics s) type) = true) as Hdef.
  { destruct Hpre as [|[_ [Hlt|Hm]]%reachable_invariant]; [done|..];
      destruct (is_defined _) eqn:Hd; try done; exfalso;
      subst s1; unfold afterUpdate in *; rewrite Hd in *; [lia|congruence]. }
  subst r s1. unfold afterUpdate in *. rewrite Hdef in *.
  rewrite setBiometricValidated_cases by done.
  set (s1 := recordValidation type isValidated userId s) in *.
  rewrite Hmis, andb_false_r. apply Nat.leb_le in Hcount. rewrite Hcount.
  pose proof (checker_marker s1 Hmis) as Hss.
  destruct (checker_state s1) as [ss Heq]. rewrite Heq in *.
  simpl in Hss. subst ss. simpl.
  repeat split; try by simplify_map_eq.
  - intros k [b Hb]%elem_of_keys_assoc.
    by rewrite get_prop_own, fill_own, Hb.
  - intros k [u Hu]%elem_of_keys_assoc.
    by rewrite get_prop_own, fill_own, Hu.
Qed.

(** The claim's example: face validated for user "1", then voice for user
    "2". *)
Lemma mismatch_runs_security_violation_witness :
  let s := (setBiometricValidated "face" true (Str "1") (initial "")).1 in
  let r := setBiometricValidated "voice" true (Str "2") s in
  (2 ≤ countValidatedBiometrics (afterUpdate "voice" true (Str "2") s))%nat
  ∧ (doValidatedBiometricsMatchSameUser
       (afterUpdate "voice" true (Str "2") s)).1 = false
  ∧ r.2 = [ ConsoleError
              "Security violation details - Mismatched biometric user IDs:"
              (Some (Json (JObj [("face", JStr "1"); ("voice", JStr "2")])));
            SecurityAlert;
            SetTimeout (Redirect home_with_violation) 3000 ]
  ∧ sessionStorage r.1 !! "biometric_security_mismatch_ids"
    = Some (Json (JArr [JStr "1"; JStr "2"]))
  ∧ validatedBiometrics r.1 = default_flags
  ∧ validatedUserIds r.1 = default_ids.
Proof.
  intros s r.
  assert (2 ≤ countValidatedBiometrics (afterUpdate "voice" true (Str "2") s))%nat
    as Hcount by (vm_compute; lia).
  assert ((doValidatedBiometricsMatchSameUser
             (afterUpdate "voice" true (Str "2") s)).1 = false)
    as Hmis by reflexivity.
  destruct (mismatch_runs_security_violation "voice" true (Str "2") s
              (or_introl eq_refl) Hcount Hmis)
    as (He & _ & Hids & _ & Hv & _ & Hi & _).
  repeat split; assumption.
Defined.

(** *** The page-load handler *)

Lemma onDOMContentLoaded_eq s :
  onDOMContentLoaded s
  = sessionCount ← storedSessionCount s;
    Some (createAnimationContainer s,
          if (2 <=? countValidatedBiometrics s)%nat
             && negb (animationVisible s) && (2 <=? sessionCount)%nat
          then [ SetTimeout ShowCarDoorAnimation 500 ] else []).
Proof.
  unfold onDOMContentLoaded, createAnimationContainer.
  destruct (container s);
    (destruct (storedSessionCount _); simpl; [|done]);
    by destruct (_ && _ && _).
Qed.

Lemma decode_count (l : list (string * json)) (l' : list (string * bool)) :
  mapM (λ kv : string * json, a ← bool_of_json kv.2; Some (kv.1, a)) l
  = Some l' →
  length (List.filter json_truthy l.*2) = length (List.filter truthy l'.*2).
Proof.
  revert l'. induction l as [|[k j] l IH]; intros l'.
  - by intros [= <-].
  - cbn [mapM]. destruct j as [|b| | | |]; simpl; try done.
    destruct (mapM _ l) as [l0|]; simpl; [|done].
    intros [= <-]. simpl. specialize (IH l0 eq_refl).
    destruct b; simpl; [f_equal|]; exact IH.
Qed.

(** What the handler counts in the stored text is what the variable
    [sessionValidations] was loaded with. *)
Lemma load_session_count ls ss now s :
  load ls ss now = Some s →
  match storedSessionCount s with
  | Some n => n = countSessionValidations s
  | None => countSessionValidations s = 0%nat
  end.
Proof.
  unfold load.
  destruct (parse_or _ _ (ls !! "validatedBiometrics")) as [vb|]; [|done].
  simpl.
  destruct (parse_or _ _ (ls !! "sessionValidations")) as [sv|] eqn:Hsv;
    [|done].
  simpl. destruct (parse_or _ _ (ls !! "validatedUserIds")); [|done].
  intros [= <-]. unfold storedSessionCount, storedSessionValidations.
  unfold countSessionValidations. simpl.
  destruct (ls !! "sessionValidations") as [[j|raw]|]; simpl in Hsv.
  - destruct (json_truthy j) eqn:Ht.
    + destruct j as [| | | | |l]; try done. simpl in Hsv.
      destruct (mapM _ l) as [l0|] eqn:Hl; [|done].
      injection Hsv as <-. simpl. by apply decode_count.
    + injection Hsv as <-.
      destruct j as [|b|n|str| |]; simpl in *; try done.
      destruct str; by simpl in *.
  - done.
  - by injection Hsv as <-.
Qed.

Lemma load_animationVisible ls ss now s :
  load ls ss now = Some s → animationVisible s = false.
Proof.
  unfold load.
  destruct (parse_or _ _ (ls !! "validatedBiometrics")); [|done]. simpl.
  destruct (parse_or _ _ (ls !! "sessionValidations")); [|done]. simpl.
  destruct (parse_or _ _ (ls !! "validatedUserIds")); [|done].
  by intros [= <-].
Qed.

(** C6. The page-load handler schedules [showCarDoorAnimation] exactly
    when two factors are validated, the stored session flags count two or
    more, and the animation is not visible.  When the module has just been
    loaded the animation is not visible and the stored count is that of
    [sessionValidations], so the replay fires exactly when both counts
    reach two.  When the session flags do not count two, nothing is
    scheduled, however many factors are validated. *)
Theorem page_load_replay_iff :
  (∀ s,
     (∃ s', onDOMContentLoaded s
            = Some (s', [ SetTimeout ShowCarDoorAnimation 500 ]))
     ↔ (2 ≤ countValidatedBiometrics s)%nat
       ∧ (∃ n, storedSessionCount s = Some n ∧ (2 ≤ n)%nat)
       ∧ animationVisible s = false)
  ∧ (∀ ls ss now s,
       load ls ss now = Some s →
       animationVisible s = false
       ∧ ((∃ s', onDOMContentLoaded s
                 = Some (s', [ SetTimeout ShowCarDoorAnimation 500 ]))
          ↔ (2 ≤ countValidatedBiometrics s)%nat
            ∧ (2 ≤ countSessionValidations s)%nat))
  ∧ (∀ s s' es,
       ¬ (∃ n, storedSessionCount s = Some n ∧ (2 ≤ n)%nat) →
       onDOMContentLoaded s = Some (s', es) → es = []).
Proof.
  assert (∀ s,
     (∃ s', onDOMContentLoaded s
            = Some (s', [ SetTimeout ShowCarDoorAnimation 500 ]))
     ↔ (2 ≤ countValidatedBiometrics s)%nat
       ∧ (∃ n, storedSessionCount s = Some n ∧ (2 ≤ n)%nat)
       ∧ animationVisible s = false) as Hiff.
  { intros s. rewrite onDOMContentLoaded_eq.
    destruct (storedSessionCount s) as [n|]; cbn [mbind option_bind].
    - assert ((2 <=? countValidatedBiometrics s)%nat
              && negb (animationVisible s) && (2 <=? n)%nat = true
              ↔ (2 ≤ countValidatedBiometrics s)%nat
                ∧ (∃ m, Some n = Some m ∧ (2 ≤ m)%nat)
                ∧ animationVisible s = false) as <-.
      { rewrite !andb_true_iff, !Nat.leb_le, negb_true_iff. split.
        - intros [[? ?] ?]. eauto.
        - intros (? & (m & [= <-] & ?) & ?). done. }
      destruct (_ && _ && _); split; try done; eauto.
      by intros [s' [= _ ?]].
    - split; [by intros [? ?]|]. by intros (_ & (? & ? & _) & _). }
  split; [exact Hiff|split].
  - intros ls ss now s Hload.
    pose proof (load_animationVisible ls ss now s Hload) as Hvis.
    split; [done|]. rewrite Hiff.
    pose proof (load_session_count ls ss now s Hload) as Hn.
    destruct (storedSessionCount s) as [n|].
    + subst n. split.
      * by intros (? & (m & [= <-] & ?) & _).
      * intros [? ?]. eauto.
    + split; [by intros (_ & (? & ? & _) & _)|lia].
  - intros s s' es Hno. rewrite onDOMContentLoaded_eq.
    destruct (storedSessionCount s) as [n|]; cbn [mbind option_bind]; [|done].
    destruct (2 <=? n)%nat eqn:Hn.
    + destruct Hno. exists n. by apply Nat.leb_le in Hn.
    + rewrite andb_false_r. by intros [= _ <-].
Qed.

(** *** The consistency check against the specification *)

Lemma is_null_decide (u : ident) : is_null u = bool_decide (u = Null).
Proof. by destruct u. Qed.

Lemma checker_true_iff s :
  (doValidatedBiometricsMatchSameUser s).1 = true
  ↔ (length (collectedUserIds s) < 2)%nat
    ∨ ∀ u, u ∈ collectedUserIds s →
           Some (String_ u) = String_ <$> head (collectedUserIds s).
Proof.
  rewrite checker_result, orb_true_iff, Nat.leb_le, allMatch_spec.
  split; (intros [?|?]; [left; lia|by right]).
Qed.

(** C7. With PersistentState held in the two objects, the identifiers the
    function collects are those of the factors that are validated with a
    non-null identifier, and no others; with fewer than two of them the
    function returns true, and with two or more it returns true exactly
    when each of them equals the first as a string. *)
Theorem consistency_check_meets_spec (p : Spec.PersistentState) (s : state) :
  let s' := with_validatedUserIds (Spec.idsObject p)
              (with_validatedBiometrics (Spec.flagsObject p) s) in
  collectedUserIds s' = Spec.collected p
  ∧ ((length (Spec.collected p) < 2)%nat →
     (doValidatedBiometricsMatchSameUser s').1 = true)
  ∧ ((2 ≤ length (Spec.collected p))%nat →
     ((doValidatedBiometricsMatchSameUser s').1 = true
      ↔ Spec.allEqualFirst (Spec.collected p))).
Proof.
  intros s'.
  assert (collectedUserIds s' = Spec.collected p) as Hcoll.
  { destruct p as [[[[b1 u1] [b2 u2]] [b3 u3]] [b4 u4]].
    unfold collectedUserIds, Spec.collected. subst s'.
    cbn -[is_null bool_decide get_prop]. rewrite <- !is_null_decide.
    set (o := Obj _ true).
    change (get_prop o "face") with (Own b1).
    change (get_prop o "voice") with (Own b2).
    change (get_prop o "retina") with (Own b3).
    change (get_prop o "proximity") with (Own b4).
    cbn -[is_null].
    destruct (b1 && negb (is_null u1)), (b2 && negb (is_null u2)),
      (b3 && negb (is_null u3)), (b4 && negb (is_null u4)); reflexivity. }
  split; [done|]. rewrite checker_true_iff, Hcoll.
  unfold Spec.allEqualFirst. split.
  - intros. by left.
  - intros Hlen. split; [|by right]. intros [?|?]; [lia|done].
Qed.

(** *** Validation without an identifier *)



(** The second case of C10 does occur: with face and voice validated for
    user "1" and retina validated without an identifier while the overlay
    was up, and the session flags reset since, validating face and voice
    again without identifiers enters [showCarDoorAnimation] on the second
    call, where the null identifier of retina differs from "1", and the
    reset clears what the call had kept. *)
Example revalidation_can_end_in_reset :
  let s1 := (setBiometricValidated "face" true (Str "1") (initial "")).1 in
  let s2 := (setBiometricValidated "voice" true (Str "1") s1).1 in
  let s3 := (setBiometricValidated "retina" true Null s2).1 in
  let s4 := with_animationVisible false (resetSessionValidations s3) in
  let s5 := (setBiometricValidated "face" true Null s4).1 in
  let r := setBiometricValidated "voice" true Null s5 in
  reachable s5
  ∧ get_prop (validatedUserIds s5) "voice" = Own (Str "1")
  ∧ get_prop (validatedUserIds (recordValidation "voice" true Null s5)) "voice"
    = Own (Str "1")
  ∧ entersSecurityViolation r.2 = true
  ∧ get_prop (validatedUserIds r.1) "voice" = Own Null.
Proof.
  split; [|by vm_compute].
  repeat (eapply reachable_step;
          [|first [apply step_setBiometricValidated
                  |apply step_cleanUp
                  |apply step_resetSessionValidations]]).
  apply reachable_initial.
Qed.

End Properties.

(* ===================================================================== *)
(** ** Further properties of the two scripts *)
(* ===================================================================== *)

Module Further.
Import Js BiometricAnimation Properties.

(** *** Counting *)

Lemma count_fold (o : object bool) (l : list string) n :
  fold_left (λ count type,
               if slot_truthy (get_prop o type) then S count else count)
    l n
  = (n + length (List.filter (λ type, slot_truthy (get_prop o type)) l))%nat.
Proof.
  revert n. induction l as [|k l IH]; intros n; simpl; [lia|].
  rewrite IH. destruct (slot_truthy (get_prop o k)); simpl; lia.
Qed.

(** X1. The count that gates the decision of [setBiometricValidated],
    taken by the [for ... in] loop of [countValidatedBiometrics], is the
    number of types whose identifiers [showCarDoorAnimation] compares. *)
Theorem count_is_number_of_validatedTypes s :
  countValidatedBiometrics s = length (validatedTypes s).
Proof. unfold countValidatedBiometrics, validatedTypes. by rewrite count_fold. Qed.

(** *** The consistency check as an operation *)

(** X2. [doValidatedBiometricsMatchSameUser] changes nothing when it
    returns true; when it returns false it only writes the marker and the
    collected identifiers to [sessionStorage]; and a second call right
    after returns the same and leaves the state of the first. *)
Theorem check_only_marks_mismatches s :
  let r := doValidatedBiometricsMatchSameUser s in
  (r.1 = true → r.2 = s)
  ∧ (r.1 = false →
     r.2 = session_setItem "biometric_security_mismatch_ids"
             (Json (JArr (json_of_ident <$> collectedUserIds s)))
             (session_setItem "biometric_security_violation" true_text s))
  ∧ doValidatedBiometricsMatchSameUser r.2 = r.
Proof.
  intros r. subst r. unfold doValidatedBiometricsMatchSameUser.
  destruct (length (collectedUserIds s) <=? 1)%nat eqn:Hlen; simpl.
  { rewrite Hlen. done. }
  destruct (allMatch (collectedUserIds s)) eqn:Hall; simpl.
  { rewrite Hlen, Hall. done. }
  split; [done|]. split; [done|].
  set (s' := session_setItem _ _ _).
  assert (collectedUserIds s' = collectedUserIds s) as -> by done.
  rewrite Hlen, Hall. f_equal.
  apply state_eq; try done. simpl.
  apply map_eq; intros i. rewrite !lookup_insert. by repeat case_decide.
Qed.
(** *** Reloading *)

(** A state to try the statements about reachable states on: face and
    voice validated for user "1" on a first visit. *)
Lemma reachable_two_validated :
  reachable (setBiometricValidated "voice" true (Str "1")
               (setBiometricValidated "face" true (Str "1")
                  (initial "")).1).1.
Proof.
  eapply reachable_step; [|apply step_setBiometricValidated].
  eapply reachable_step; [|apply step_setBiometricValidated].
  apply reachable_initial.
Qed.

(** X3. Whatever the script has done since a first visit, loading it
    again from [localStorage] succeeds and finds the validated flags and
    the session flags as they were and the same identifier under every
    type; the animation starts hidden.  The stored copies lose nothing. *)
Theorem reload_restores_the_variables s ss now :
  reachable s →
  ∃ s', load (localStorage s) ss now = Some s'
        ∧ validatedBiometrics s' = validatedBiometrics s
        ∧ sessionValidations s' = sessionValidations s
        ∧ own (validatedUserIds s') = own (validatedUserIds s)
        ∧ (∀ type u, get_prop (validatedUserIds s) type = Own u →
                     get_prop (validatedUserIds s') type = Own u)
        ∧ countValidatedBiometrics s' = countValidatedBiometrics s
        ∧ (doValidatedBiometricsMatchSameUser s').1
          = (doValidatedBiometricsMatchSameUser s).1
        ∧ animationVisible s' = false
        ∧ localStorage s' = localStorage s
        ∧ sessionStorage s' = ss.
Proof.
  intros [Hk _]%reachable_invariant. eexists.
  split; [by apply load_kept|]. simpl. split_and!; try done.
  - intros type u Hu. apply get_prop_own. by apply get_prop_own in Hu.
  - by apply checker_ext.
Qed.

Lemma reload_restores_the_variables_witness :
  let s := (setBiometricValidated "voice" true (Str "1")
              (setBiometricValidated "face" true (Str "1")
                 (initial "")).1).1 in
  reachable s
  ∧ ∃ s', load (localStorage s) ∅ "" = Some s'
          ∧ validatedBiometrics s' = validatedBiometrics s
          ∧ sessionValidations s' = sessionValidations s
          ∧ own (validatedUserIds s') = own (validatedUserIds s).
Proof.
  intros s. split; [exact reachable_two_validated|].
  destruct (reload_restores_the_variables s ∅ "" reachable_two_validated)
    as (s' & Hload & Hv & Hs & Hi & _).
  exists s'. repeat split; assumption.
Defined.

(** X4. A mismatch never stays: in every state the script gets into from
    a first visit, across reloads and sessions, either fewer than two
    factors are validated or the consistency check returns true, that is,
    the identifiers it collects all read the same as strings. *)
Theorem mismatch_never_persists s :
  reachable s →
  (2 ≤ countValidatedBiometrics s)%nat →
  (doValidatedBiometricsMatchSameUser s).1 = true
  ∧ (doValidatedBiometricsMatchSameUser s).2 = s
  ∧ ∀ u v, u ∈ collectedUserIds s → v ∈ collectedUserIds s →
           String_ u = String_ v.
Proof.
  intros [_ [Hlt|Hm]]%reachable_invariant Hcount; [lia|].
  split; [done|]. split.
  - unfold doValidatedBiometricsMatchSameUser in *.
    destruct (length (collectedUserIds s) <=? 1)%nat; [done|].
    by destruct (allMatch (collectedUserIds s)).
  - rewrite checker_result in Hm. apply orb_true_iff in Hm as [Hlen|Hall].
    + apply Nat.leb_le in Hlen. intros u v Hu Hv.
      destruct (collectedUserIds s) as [|x [|y l]]; simpl in Hlen; [|..|lia].
      * by apply elem_of_nil in Hu.
      * apply list_elem_of_singleton in Hu, Hv. by subst.
    + intros u v Hu Hv.
      pose proof (proj1 (allMatch_spec _) Hall) as Hfirst.
      pose proof (Hfirst u Hu) as Hu'. pose proof (Hfirst v Hv) as Hv'.
      destruct (head (collectedUserIds s)); simpl in *; congruence.
Qed.

Lemma mismatch_never_persists_witness :
  let s := (setBiometricValidated "voice" true (Str "1")
              (setBiometricValidated "face" true (Str "1")
                 (initial "")).1).1 in
  reachable s
  ∧ (2 ≤ countValidatedBiometrics s)%nat
  ∧ (doValidatedBiometricsMatchSameUser s).1 = true.
Proof.
  intros s.
  assert (2 ≤ countValidatedBiometrics s)%nat as Hcount by (vm_compute; lia).
  split; [exact reachable_two_validated|]. split; [exact Hcount|].
  exact (proj1 (mismatch_never_persists s reachable_two_validated Hcount)).
Defined.

(** *** After a reset *)

Lemma assoc_None_keys {A} (l : list (string * A)) k :
  assoc l k = None ↔ k ∉ l.*1.
Proof.
  induction l as [|[k0 a] l IH]; simpl.
  - split; [intros _ ?%elem_of_nil; done|done].
  - rewrite not_elem_of_cons. destruct (decide (k0 = k)) as [->|Hne].
    + split; [done|]. by intros [? _].
    + rewrite IH. split; [done|]. by intros [_ ?].
Qed.

Lemma update_keys {A} (l : list (string * A)) k v :
  (update l k v).*1 = l.*1.
Proof.
  induction l as [|[k0 a] l IH]; simpl; [done|].
  destruct (decide (k0 = k)); simpl; by f_equal.
Qed.

(** An assignment keeps the keys distinct. *)
Lemma set_prop_NoDup {A} `{Primitive A} (o : object A) k v :
  NoDup (keys o) → NoDup (keys (set_prop o k v)).
Proof.
  unfold keys, set_prop. intros Hnd.
  destruct (assoc (own o) k) eqn:Hk; simpl.
  - by rewrite update_keys.
  - destruct (linked o && _); simpl; [done|].
    rewrite fmap_app. simpl. apply NoDup_app. split; [done|].
    split; [|apply NoDup_singleton].
    intros x Hx ->%list_elem_of_singleton. by apply assoc_None_keys in Hk.
Qed.

Lemma filter_none {A} (p : A → bool) (l : list A) :
  (∀ x, x ∈ l → p x = false) → List.filter p l = [].
Proof.
  induction l as [|x l IH]; intros Hp; simpl; [done|].
  rewrite (Hp x) by left. apply IH. intros y Hy. apply Hp. by right.
Qed.

Lemma filter_at_most_one (p : string → bool) (l : list string) k :
  NoDup l → (∀ x, x ∈ l → p x = true → x = k) →
  (length (List.filter p l) ≤ 1)%nat.
Proof.
  induction 1 as [|x l Hx Hnd IH]; intros Hp; simpl; [lia|].
  destruct (p x) eqn:Hpx.
  - assert (x = k) as -> by (apply Hp; [left|done]).
    rewrite filter_none; [simpl; lia|].
    intros y Hy. destruct (p y) eqn:Hpy; [|done].
    destruct Hx. assert (y = k) as <-; [|done]. apply Hp; [by right|done].
  - apply IH. intros y Hy. apply Hp. by right.
Qed.

Lemma count_after_assignment (o : object bool) type isValidated :
  NoDup (keys o) →
  (length (List.filter
             (λ k, slot_truthy
                     (get_prop (set_prop (fill false o) type isValidated) k))
             (keys (set_prop (fill false o) type isValidated))) ≤ 1)%nat.
Proof.
  intros Hnd. apply (filter_at_most_one _ _ type).
  - apply set_prop_NoDup. by rewrite fill_keys.
  - intros x Hx Htrue. destruct (decide (x = type)) as [|Hne]; [done|].
    apply elem_of_keys_assoc in Hx as [b Hb].
    assert (get_prop (set_prop (fill false o) type isValidated) x = Own b)
      as Hget by by apply get_prop_own.
    rewrite set_prop_other, fill_own in Hb by done.
    destruct (assoc (own o) x); simplify_eq/=.
    by rewrite Hget in Htrue.
Qed.

(** X5. Right after [resetBiometricValidations] one call to
    [setBiometricValidated] starts nothing, whatever its arguments: at
    most one factor is validated then, so the call neither enters the
    animation nor runs the security-violation flow, and for a type that
    passes the guard it has no effect on the page at all. *)
Theorem one_call_after_reset_starts_nothing type isValidated userId s :
  NoDup (keys (validatedBiometrics s)) →
  let s0 := resetBiometricValidations s in
  let r := setBiometricValidated type isValidated userId s0 in
  (countValidatedBiometrics (afterUpdate type isValidated userId s0) ≤ 1)%nat
  ∧ entersShowCarDoorAnimation r.2 = false
  ∧ entersSecurityViolation r.2 = false
  ∧ (is_defined (get_prop (validatedBiometrics s0) type) = true →
     r.2 = [] ∧ sameRecords (recordValidation type isValidated userId s0) r.1).
Proof.
  intros Hnd s0 r. unfold afterUpdate. subst r.
  destruct (is_defined (get_prop (validatedBiometrics s0) type)) eqn:Hdef.
  - assert (countValidatedBiometrics
              (recordValidation type isValidated userId s0) ≤ 1)%nat as Hle.
    { unfold countValidatedBiometrics. rewrite count_fold, record_validated.
      simpl. by apply count_after_assignment. }
    rewrite setBiometricValidated_cases by done.
    assert ((2 <=? countValidatedBiometrics
                     (recordValidation type isValidated userId s0))%nat
            = false) as -> by (apply Nat.leb_gt; lia).
    simpl. split_and!; try done. intros _. split; [done|].
    apply sameRecords_checker.
  - rewrite setBiometricValidated_unknown by done. split_and!; try done.
    unfold s0. rewrite count_reset. lia.
Qed.

Lemma one_call_after_reset_starts_nothing_witness :
  NoDup (keys (validatedBiometrics (initial "")))
  ∧ (setBiometricValidated "face" true (Str "1")
       (resetBiometricValidations (initial ""))).2 = [].
Proof.
  assert (NoDup (keys (validatedBiometrics (initial "")))) as Hnd
    by (apply (bool_decide_unpack _); vm_compute; reflexivity).
  split; [exact Hnd|].
  exact (proj1 (proj2 (proj2 (proj2
           (one_call_after_reset_starts_nothing "face" true (Str "1")
              (initial "") Hnd))) eq_refl)).
Defined.

Lemma session_count_after_assignment (o : object bool) type :
  (length (List.filter truthy (values (set_prop (fill false o) type true)))
   ≤ 1)%nat.
Proof.
  assert (∀ l : list (string * bool),
            List.filter truthy (prod_map id (λ _, false) <$> l).*2 = [])
    as Hnone.
  { induction l as [|[k b] l IH]; [done|exact IH]. }
  unfold values, set_prop.
  destruct (assoc (own (fill false o)) type) eqn:Hk; simpl.
  - clear Hk. induction (own o) as [|[k c] l IH]; simpl; [lia|].
    destruct (decide (k = type)); simpl; [|exact IH].
    rewrite Hnone. simpl. lia.
  - destruct (linked o && _); simpl.
    + rewrite Hnone. simpl. lia.
    + rewrite fmap_app, List.filter_app, Hnone. simpl. lia.
Qed.

(** X6. Right after [resetSessionValidations] one call to
    [setBiometricValidated] never enters the animation, however many
    factors are still validated from before: only the session flag of the
    call's own type can be set, and the animation wants two. *)
Theorem one_call_after_session_reset_shows_nothing type isValidated userId s :
  let s0 := resetSessionValidations s in
  let r := setBiometricValidated type isValidated userId s0 in
  countSessionValidations s0 = 0%nat
  ∧ validatedBiometrics s0 = validatedBiometrics s
  ∧ validatedUserIds s0 = validatedUserIds s
  ∧ (countSessionValidations (afterUpdate type isValidated userId s0) ≤ 1)%nat
  ∧ entersShowCarDoorAnimation r.2 = false.
Proof.
  intros s0 r. subst r.
  assert (countSessionValidations s0 = 0%nat) as Hzero.
  { unfold countSessionValidations, values. simpl.
    induction (own (sessionValidations s)) as [|[k b] l IH]; [done|exact IH]. }
  split; [done|]. split; [done|]. split; [done|]. unfold afterUpdate.
  destruct (is_defined (get_prop (validatedBiometrics s0) type)) eqn:Hdef.
  - assert (countSessionValidations
              (recordValidation type isValidated userId s0) ≤ 1)%nat as Hle.
    { unfold countSessionValidations. rewrite record_session.
      destruct isValidated.
      - apply session_count_after_assignment.
      - fold (countSessionValidations s0). lia. }
    split; [done|]. rewrite setBiometricValidated_cases by done.
    assert ((2 <=? countSessionValidations
                     (recordValidation type isValidated userId s0))%nat
            = false) as -> by (apply Nat.leb_gt; lia).
    rewrite andb_false_r. simpl.
    by destruct (_ && negb _).
  - rewrite setBiometricValidated_unknown by done. split; [lia|done].
Qed.

(** *** When the door animation plays *)

Lemma someDiffers_false (ids : list (slot ident)) :
  someDiffers ids = false ↔ ∀ x y, x ∈ ids → y ∈ ids → x = y.
Proof.
  unfold someDiffers. destruct ids as [|first ids]; simpl.
  - split; [|done]. by intros _ x y ?%elem_of_nil.
  - unfold strict_eq at 1. rewrite bool_decide_true by done. simpl.
    split.
    + intros Hnone.
      assert (∀ x, x ∈ ids → x = first) as Hfirst.
      { intros x Hx. destruct (decide (x = first)) as [|Hne]; [done|].
        assert (existsb (λ id, negb (strict_eq id first)) ids = true)
          as Hex; [|congruence].
        apply existsb_exists. exists x. split; [by apply list_elem_of_In|].
        unfold strict_eq. by rewrite bool_decide_false. }
      intros x y [->|Hx]%elem_of_cons [->|Hy]%elem_of_cons; try done.
      * symmetry. by apply Hfirst.
      * by apply Hfirst.
      * by rewrite (Hfirst x), (Hfirst y).
    + intros Hall. apply not_true_is_false. intros Hex.
      apply existsb_exists in Hex as (x & Hx%list_elem_of_In & Hne).
      unfold strict_eq in Hne. apply negb_true_iff, bool_decide_eq_false in Hne.
      apply Hne, Hall; [by right|left].
Qed.

Lemma show_plays_iff userName s :
  (showCarDoorAnimation userName s).2
  = [ Fetch "/static/images/vehicles/audi/animation/car-doors.svg" userName ]
  ↔ (doValidatedBiometricsMatchSameUser s).1 = true
    ∧ someDiffers (biometricUserIds s) = false.
Proof.
  unfold showCarDoorAnimation.
  destruct (checker_state s) as [ss Hss].
  destruct (doValidatedBiometricsMatchSameUser s) as [m s']. simpl in *.
  subst s'.
  change (biometricUserIds (with_sessionStorage ss s))
    with (biometricUserIds s).
  destruct m, (someDiffers (biometricUserIds s)); simpl;
    split; try done; by intros [? ?].
Qed.

Lemma standard_collected (p : Spec.PersistentState) s :
  collectedUserIds
    (with_validatedUserIds (Spec.idsObject p)
       (with_validatedBiometrics (Spec.flagsObject p) s))
  = Spec.collected p.
Proof.
  destruct p as [[[[b1 u1] [b2 u2]] [b3 u3]] [b4 u4]].
  unfold collectedUserIds, Spec.collected.
  cbn -[is_null bool_decide get_prop]. rewrite <- !is_null_decide.
  set (o := Obj _ true).
  change (get_prop o "face") with (Own b1).
  change (get_prop o "voice") with (Own b2).
  change (get_prop o "retina") with (Own b3).
  change (get_prop o "proximity") with (Own b4).
  cbn -[is_null].
  destruct (b1 && negb (is_null u1)), (b2 && negb (is_null u2)),
    (b3 && negb (is_null u3)), (b4 && negb (is_null u4)); reflexivity.
Qed.

Lemma standard_biometricUserIds (p : Spec.PersistentState) s :
  biometricUserIds
    (with_validatedUserIds (Spec.idsObject p)
       (with_validatedBiometrics (Spec.flagsObject p) s))
  = (λ r, Own (Spec.userId r)) <$> List.filter Spec.validated (Spec.records p).
Proof.
  destruct p as [[[[b1 u1] [b2 u2]] [b3 u3]] [b4 u4]].
  destruct b1, b2, b3, b4; reflexivity.
Qed.

(** X7. With PersistentState held in the two objects,
    [showCarDoorAnimation] plays exactly when all validated factors carry
    the very same identifier, [null] included: identifiers that only read
    the same as strings do not do, nor does a validated factor without an
    identifier next to one with.  When it plays, the variables and both
    stores are as before and the overlay is up; otherwise it runs the
    security-violation flow: marker stored, everything reset, redirect
    scheduled. *)
Theorem door_animation_plays_iff (p : Spec.PersistentState) userName s :
  let agree := ∀ r1 r2, r1 ∈ Spec.records p → r2 ∈ Spec.records p →
                 Spec.validated r1 = true → Spec.validated r2 = true →
                 Spec.userId r1 = Spec.userId r2 in
  let s' := with_validatedUserIds (Spec.idsObject p)
              (with_validatedBiometrics (Spec.flagsObject p) s) in
  let r := showCarDoorAnimation userName s' in
  (r.2 = [ Fetch "/static/images/vehicles/audi/animation/car-doors.svg"
             userName ]
   ↔ agree)
  ∧ (agree →
     sameRecords s' r.1 ∧ sessionStorage r.1 = sessionStorage s'
     ∧ animationVisible r.1 = true ∧ container r.1 = true
     ∧ overlay r.1 = true)
  ∧ (¬ agree →
     entersSecurityViolation r.2 = true
     ∧ sessionStorage r.1 !! "biometric_security_violation" = Some true_text
     ∧ validatedBiometrics r.1 = fill false (Spec.flagsObject p)
     ∧ validatedUserIds r.1 = fill Null (Spec.idsObject p)
     ∧ sessionValidations r.1 = fill false (sessionValidations s)
     ∧ SetTimeout (DismissAlertAndRedirect home_with_violation) 3000 ∈ r.2).
Proof.
  intros agree s' r.
  assert (someDiffers (biometricUserIds s') = false ↔ agree) as Hagree.
  { rewrite someDiffers_false. unfold s'. rewrite standard_biometricUserIds.
    unfold agree. split.
    - intros Hall r1 r2 H1 H2 Hv1 Hv2.
      assert (Own (Spec.userId r1) = Own (Spec.userId r2)) as [= ->]; [|done].
      apply Hall; apply list_elem_of_fmap; eexists; (split; [done|]);
        apply list_elem_of_In, List.filter_In;
        (split; [by apply list_elem_of_In|done]).
    - intros Hall x y (r1 & -> & [H1 Hv1]%list_elem_of_In%List.filter_In)%list_elem_of_fmap
        (r2 & -> & [H2 Hv2]%list_elem_of_In%List.filter_In)%list_elem_of_fmap.
      f_equal. apply Hall; try done; by apply list_elem_of_In. }
  assert (agree → (doValidatedBiometricsMatchSameUser s').1 = true) as Hcheck.
  { intros Hall. apply checker_true_iff. right. unfold s'.
    rewrite standard_collected.
    assert (∀ u, u ∈ Spec.collected p →
                 ∃ r0, r0 ∈ Spec.records p ∧ Spec.validated r0 = true
                       ∧ Spec.userId r0 = u) as Hmem.
    { intros u (r0 & Hr0 & Hu)%list_elem_of_omap. exists r0.
      destruct (Spec.validated r0); simpl in Hu; [|done].
      destruct (negb _); by simplify_eq. }
    intros u Hu. destruct (Spec.collected p) as [|first l] eqn:Hc;
      [by apply elem_of_nil in Hu|].
    simpl. f_equal. f_equal.
    destruct (Hmem u Hu) as (r1 & ? & ? & <-).
    destruct (Hmem first ltac:(left)) as (r2 & ? & ? & <-).
    by apply Hall. }
  assert (r.2 = [ Fetch "/static/images/vehicles/audi/animation/car-doors.svg"
                    userName ] ↔ agree) as Hplays.
  { unfold r. rewrite show_plays_iff, Hagree. split; [by intros [_ ?]|].
    intros Hall. split; [by apply Hcheck|done]. }
  split; [exact Hplays|]. split.
  - intros Hall. apply Hplays in Hall. unfold r in *.
    unfold showCarDoorAnimation in *.
    pose proof (Hcheck ltac:(by apply Hplays)) as Hm.
    pose proof (sameRecords_checker s') as Hsame.
    assert ((doValidatedBiometricsMatchSameUser s').2 = s') as Hpure.
    { unfold doValidatedBiometricsMatchSameUser in *.
      destruct (length (collectedUserIds s') <=? 1)%nat; [done|].
      by destruct (allMatch (collectedUserIds s')). }
    destruct (doValidatedBiometricsMatchSameUser s') as [m s2].
    simpl in Hm, Hpure. subst m s2.
    destruct (negb true || someDiffers (biometricUserIds s')); [done|].
    simpl. split_and!; try done;
      unfold createAnimationContainer; destruct (container s') eqn:Hc; simpl;
      try done; try (by repeat split); exact Hc.
  - intros Hno.
    assert (r.2 ≠ [ Fetch "/static/images/vehicles/audi/animation/car-doors.svg"
                      userName ]) as Hblocked by (by rewrite Hplays).
    unfold r in *. unfold showCarDoorAnimation in *.
    destruct (checker_state s') as [ss Hss].
    destruct (doValidatedBiometricsMatchSameUser s') as [m s2].
    simpl in Hss. subst s2.
    destruct (negb m || someDiffers (biometricUserIds _)); [|done].
    simpl. split_and!; try done.
    + by simplify_map_eq.
    + do 3 apply list_elem_of_further. apply list_elem_of_here.
Qed.

(** *** The security check of the welcome animation *)

Import WelcomeAnimation.

Lemma sameValueZero_ident (u v : ident) :
  sameValueZero (json_of_ident u) (json_of_ident v) = bool_decide (u = v).
Proof.
  destruct u as [|m|a], v as [|n|b]; simpl; try done;
    apply bool_decide_ext; split; congruence.
Qed.

Lemma seen_ident (seen : list ident) (u : ident) :
  existsb (λ other, sameValueZero other (json_of_ident u))
    (json_of_ident <$> seen)
  = bool_decide (u ∈ seen).
Proof.
  induction seen as [|v seen IH].
  - symmetry. apply bool_decide_eq_false_2, not_elem_of_nil.
  - cbn [fmap list_fmap existsb]. rewrite sameValueZero_ident.
    change (list_fmap ident json json_of_ident seen)
      with (json_of_ident <$> seen). rewrite IH.
    destruct (decide (v = u)) as [->|Hne].
    + rewrite (bool_decide_true (u = u)) by done. simpl.
      symmetry. apply bool_decide_eq_true_2. left.
    + rewrite (bool_decide_false (v = u)) by done. simpl.
      apply bool_decide_ext. rewrite elem_of_cons. intuition congruence.
Qed.

(** The [Set] of a list of identifiers, on the identifiers themselves. *)
Lemma uniqueIds_fold (seen ids : list ident) :
  fold_left (λ seen id,
               if existsb (λ other, sameValueZero other id) seen
               then seen else seen ++ [id])
    (json_of_ident <$> ids) (json_of_ident <$> seen)
  = json_of_ident
    <$> fold_left (λ seen u, if bool_decide (u ∈ seen) then seen
                             else seen ++ [u]) ids seen.
Proof.
  revert seen. induction ids as [|u ids IH]; intros seen; simpl; [done|].
  rewrite seen_ident. destruct (bool_decide (u ∈ seen)); [apply IH|].
  rewrite <- IH. by rewrite fmap_app.
Qed.

Lemma unique_fold_spec (seen ids : list ident) :
  let r := fold_left (λ seen u, if bool_decide (u ∈ seen) then seen
                                else seen ++ [u]) ids seen in
  (∀ u, u ∈ r ↔ u ∈ seen ∨ u ∈ ids) ∧ (NoDup seen → NoDup r).
Proof.
  revert seen. induction ids as [|v ids IH]; intros seen; simpl.
  - split; [|done]. intros u. rewrite elem_of_nil. tauto.
  - destruct (bool_decide (v ∈ seen)) eqn:Hv.
    + apply bool_decide_eq_true in Hv. destruct (IH seen) as [Hin Hnd].
      split; [|done]. intros u. rewrite Hin, elem_of_cons.
      intuition congruence.
    + apply bool_decide_eq_false in Hv.
      destruct (IH (seen ++ [v])) as [Hin Hnd]. split.
      * intros u. rewrite Hin, elem_of_app, list_elem_of_singleton, elem_of_cons.
        tauto.
      * intros Hseen. apply Hnd, NoDup_app. split; [done|].
        split; [|apply NoDup_singleton].
        by intros x Hx ->%list_elem_of_singleton.
Qed.

Lemma two_distinct (l : list ident) :
  (1 < length l)%nat → NoDup l → ∃ u v, u ∈ l ∧ v ∈ l ∧ u ≠ v.
Proof.
  destruct l as [|u [|v l]]; simpl; [lia|lia|]. intros _ Hnd.
  exists u, v. split; [left|]. split; [right; left|].
  intros ->. apply NoDup_cons in Hnd as [Hu _]. apply Hu. left.
Qed.

Lemma two_elements (l : list ident) u v :
  u ∈ l → v ∈ l → u ≠ v → (1 < length l)%nat.
Proof.
  destruct l as [|x [|y l]]; simpl; [|..|lia].
  - by intros ?%elem_of_nil.
  - intros ->%list_elem_of_singleton ->%list_elem_of_singleton. done.
Qed.

(** More than one value in the [Set] means two different identifiers. *)
Lemma uniqueIds_many (ids : list ident) :
  (1 < length (uniqueIds (json_of_ident <$> ids)))%nat
  ↔ ∃ u v, u ∈ ids ∧ v ∈ ids ∧ u ≠ v.
Proof.
  unfold uniqueIds.
  change (@nil json) with (json_of_ident <$> @nil ident).
  rewrite uniqueIds_fold, length_fmap.
  destruct (unique_fold_spec [] ids) as [Hin Hnd]. simpl in *. split.
  - intros Hlen. destruct (two_distinct _ Hlen (Hnd (NoDup_nil_2)))
      as (u & v & Hu & Hv & Hne).
    exists u, v. apply Hin in Hu as [?%elem_of_nil|Hu]; [done|].
    apply Hin in Hv as [?%elem_of_nil|Hv]; [done|]. done.
  - intros (u & v & Hu & Hv & Hne).
    apply (two_elements _ u v); [apply Hin; by right..|done].
Qed.

Lemma nonNullIds_stringify (o : object ident) :
  nonNullIds (JObj (prod_map id json_of_ident <$> own o))
  = json_of_ident <$> List.filter (λ u, negb (is_null u)) (values o).
Proof.
  unfold nonNullIds, values. simpl.
  induction (own o) as [|[k u] l IH]; [done|].
  destruct u; simpl; [exact IH|f_equal; exact IH..].
Qed.

(** What the welcome check decides on a stored copy that is up to date. *)
Lemma mismatchedIds_mirror (o : object ident) item :
  mirrors json_of_ident default_ids o item →
  is_Some (mismatchedIds
             match item with
             | Some (Json j) => Some j
             | _ => None
             end)
  ↔ ∃ u v, u ∈ values o ∧ v ∈ values o
           ∧ u ≠ Null ∧ v ≠ Null ∧ u ≠ v.
Proof.
  assert (∀ u, u ∈ List.filter (λ u, negb (is_null u)) (values o)
               ↔ u ∈ values o ∧ u ≠ Null) as Hfilter.
  { intros u. rewrite list_elem_of_In, List.filter_In, <- list_elem_of_In.
    destruct u; simpl; intuition congruence. }
  destruct item as [t|]; simpl.
  - intros ->. unfold stringify, mismatchedIds.
    rewrite nonNullIds_stringify. cbn [json_truthy andb].
    destruct (1 <? length _)%nat eqn:Hmany; cbv beta iota zeta.
    + destruct (1 <? length (uniqueIds _))%nat eqn:Huniq.
      * apply Nat.ltb_lt, uniqueIds_many in Huniq as (u & v & Hu & Hv & Hne).
        apply Hfilter in Hu as [Hu Hun]. apply Hfilter in Hv as [Hv Hvn].
        split; [intros _; exists u, v; done|intros _; eexists; done].
      * split; [by intros [? ?]|]. intros (u & v & Hu & Hv & Hun & Hvn & Hne).
        apply Nat.ltb_ge in Huniq.
        assert (1 < length (uniqueIds
                  (json_of_ident
                   <$> List.filter (λ u, negb (is_null u)) (values o))))%nat;
          [|lia].
        apply uniqueIds_many. exists u, v. by rewrite !Hfilter.
    + split; [by intros [? ?]|]. intros (u & v & Hu & Hv & Hun & Hvn & Hne).
      apply Nat.ltb_ge in Hmany. rewrite length_fmap in Hmany.
      assert (1 < length (List.filter (λ u, negb (is_null u)) (values o)))%nat;
        [|lia].
      apply (two_elements _ u v); by rewrite ?Hfilter.
  - intros Hown. split; [by intros [? ?]|].
    intros (u & v & Hu & _ & Hun & _). unfold values in Hu. rewrite Hown in Hu.
    simpl in Hu. repeat (apply elem_of_cons in Hu as [->|Hu]; [done|]).
    by apply elem_of_nil in Hu.
Qed.

Lemma storedUserIds_kept s :
  kept s →
  storedUserIds s
  = (match localStorage s !! "validatedUserIds" with
     | Some (Json j) => Some j
     | _ => None
     end, []).
Proof.
  intros [_ _ _ _ Hm _]. unfold storedUserIds.
  destruct (localStorage s !! "validatedUserIds") as [t|]; [|done].
  simpl in Hm. by subst t.
Qed.

Lemma collected_values s u :
  u ∈ collectedUserIds s → u ∈ values (validatedUserIds s) ∧ u ≠ Null.
Proof.
  unfold collectedUserIds, values.
  intros ([k u'] & -> & [Hin Hp]%list_elem_of_In%List.filter_In)%list_elem_of_fmap.
  split.
  - apply list_elem_of_fmap. exists (k, u'). split; [done|].
    by apply list_elem_of_In.
  - apply andb_true_iff in Hp as [_ Hnn]. simpl in *. by destruct u'.
Qed.

(** Identifiers that are the same wherever they are not null pass the
    consistency check. *)
Lemma agreeing_ids_pass s :
  ¬ (∃ u v, u ∈ values (validatedUserIds s) ∧ v ∈ values (validatedUserIds s)
            ∧ u ≠ Null ∧ v ≠ Null ∧ u ≠ v) →
  (doValidatedBiometricsMatchSameUser s).1 = true.
Proof.
  intros Hno. apply checker_true_iff. right. intros u Hu.
  destruct (collectedUserIds s) as [|first l] eqn:Hc;
    [by apply elem_of_nil in Hu|].
  simpl. f_equal. f_equal.
  destruct (decide (u = first)) as [|Hne]; [done|]. destruct Hno.
  assert (first ∈ collectedUserIds s) as Hf by (rewrite Hc; left).
  rewrite <- Hc in Hu.
  apply collected_values in Hu as [? ?]. apply collected_values in Hf as [? ?].
  by exists u, first.
Qed.

Lemma check_pure s :
  (doValidatedBiometricsMatchSameUser s).1 = true →
  (doValidatedBiometricsMatchSameUser s).2 = s.
Proof.
  unfold doValidatedBiometricsMatchSameUser.
  destruct (length (collectedUserIds s) <=? 1)%nat; [done|].
  by destruct (allMatch (collectedUserIds s)).
Qed.

(** How a call of [showWelcomeAnimation] goes on a page whose script
    state is [kept]. *)
Lemma showWelcomeAnimation_kept name vehicleModel p :
  kept (script p) →
  let mismatch :=
    ∃ u v, u ∈ values (validatedUserIds (script p))
           ∧ v ∈ values (validatedUserIds (script p))
           ∧ u ≠ Null ∧ v ≠ Null ∧ u ≠ v in
  let s2 := (doValidatedBiometricsMatchSameUser (script p)).2 in
  (mismatch
   ∧ ∃ uniqueUserIds,
       showWelcomeAnimation name vehicleModel p
       = (Page (resetBiometricValidations
                  (session_setItem "biometric_security_violation_details"
                     (Json (violationDetails (clock s2) uniqueUserIds))
                     (session_setItem "biometric_security_violation"
                        true_text s2)))
            (welcomeAnimation p),
          [ Error
              "[WELCOME ANIMATION] SECURITY ALERT: Animation blocked due to mismatched user biometrics!";
            Error "[WELCOME ANIMATION] Multiple user IDs detected:";
            IdentityAlert;
            Later (GoTo home_with_violation) 3000 ],
          true))
  ∨ (¬ mismatch
     ∧ showWelcomeAnimation name vehicleModel p
       = (Page (script p)
            (Welcome true (Some name)
               (Some (name, carSvgSrc vehicleModel)) true
               (visible
                  (if animationContainer (welcomeAnimation p)
                   then welcomeAnimation p
                   else createAnimationContainer (welcomeAnimation p)))),
          [ Later AddVisible 100; EngineSound;
            Later HideWelcomeAnimation 10000 ],
          false)).
Proof.
  intros Hk mismatch. cbv zeta.
  pose proof (sameRecords_checker (script p)) as Hsame.
  pose proof (kept_ext (script p) _ Hsame Hk) as Hk2.
  pose proof (mismatchedIds_mirror _ _ (kept_stored_ids _ Hk2)) as Hiff.
  pose proof (check_pure (script p)) as Hpure.
  pose proof (agreeing_ids_pass (script p)) as Hpass.
  fold mismatch in Hpass.
  replace (validatedUserIds (doValidatedBiometricsMatchSameUser (script p)).2)
    with (validatedUserIds (script p)) in Hiff by apply Hsame.
  fold mismatch in Hiff.
  unfold showWelcomeAnimation.
  destruct (doValidatedBiometricsMatchSameUser (script p)) as [m s2].
  cbn [fst snd] in *. rewrite (storedUserIds_kept s2 Hk2).
  destruct (mismatchedIds _) as [uniqueUserIds|].
  - left. split; [apply Hiff; eauto|]. by exists uniqueUserIds.
  - right. assert (¬ mismatch) as Hno.
    { intros [? Hsome]%Hiff. done. }
    split; [done|]. by rewrite (Hpure (Hpass Hno)).
Qed.

(** X8. On a page the script has been running on since a first visit,
    [showWelcomeAnimation] blocks exactly when two non-null identifiers
    are stored that are not the very same value; whether their factors
    are validated, and whether they read the same as strings, plays no
    part. *)
Theorem welcome_blocks_iff name vehicleModel p :
  reachable (script p) →
  (showWelcomeAnimation name vehicleModel p).2 = true
  ↔ ∃ u v, u ∈ values (validatedUserIds (script p))
           ∧ v ∈ values (validatedUserIds (script p))
           ∧ u ≠ Null ∧ v ≠ Null ∧ u ≠ v.
Proof.
  intros [Hk _]%reachable_invariant.
  destruct (showWelcomeAnimation_kept name vehicleModel p Hk)
    as [[Hm [ids ->]]|[Hno ->]]; simpl; [done|].
  split; [done|]. intros ?. by destruct Hno.
Qed.

Lemma welcome_blocks_iff_witness :
  let p := Page (setBiometricValidated "voice" true (Str "1")
                   (setBiometricValidated "face" true (Str "1")
                      (initial "")).1).1 no_welcome in
  reachable (script p)
  ∧ ((showWelcomeAnimation "Ada" None p).2 = true
     ↔ ∃ u v, u ∈ values (validatedUserIds (script p))
              ∧ v ∈ values (validatedUserIds (script p))
              ∧ u ≠ Null ∧ v ≠ Null ∧ u ≠ v).
Proof.
  intros p.
  assert (reachable (script p)) as Hr by exact reachable_two_validated.
  split; [exact Hr|]. exact (welcome_blocks_iff "Ada" None p Hr).
Defined.

(** X9. What [showWelcomeAnimation] leaves behind on such a page.  When
    it blocks, it returns false, the script's three variables are zeroed
    as by [resetBiometricValidations], the violation marker is in
    [sessionStorage], the redirect to the home page is scheduled 3000 ms
    later and nothing is shown.  When it does not block, the script's
    state and both stores are untouched, the container shows the name
    with the image chosen for the vehicle model, and the timers for the
    fade-in and for hiding it after ten seconds are set. *)
Theorem welcome_outcome name vehicleModel p :
  reachable (script p) →
  let r := showWelcomeAnimation name vehicleModel p in
  (r.2 = true →
   r.1.2 = [ Error
               "[WELCOME ANIMATION] SECURITY ALERT: Animation blocked due to mismatched user biometrics!";
             Error "[WELCOME ANIMATION] Multiple user IDs detected:";
             IdentityAlert;
             Later (GoTo home_with_violation) 3000 ]
   ∧ welcomeAnimation r.1.1 = welcomeAnimation p
   ∧ validatedBiometrics (script r.1.1)
     = fill false (validatedBiometrics (script p))
   ∧ sessionValidations (script r.1.1)
     = fill false (sessionValidations (script p))
   ∧ validatedUserIds (script r.1.1)
     = fill Null (validatedUserIds (script p))
   ∧ countValidatedBiometrics (script r.1.1) = 0%nat
   ∧ sessionStorage (script r.1.1) !! "biometric_security_violation"
     = Some true_text
   ∧ sessionStorage (script r.1.1) !! "has_shown_biometric_welcome" = None)
  ∧ (r.2 = false →
     r.1.2 = [ Later AddVisible 100; EngineSound;
               Later HideWelcomeAnimation 10000 ]
     ∧ script r.1.1 = script p
     ∧ animationContainer (welcomeAnimation r.1.1) = true
     ∧ userName (welcomeAnimation r.1.1) = Some name
     ∧ content (welcomeAnimation r.1.1)
       = Some (name, carSvgSrc vehicleModel)
     ∧ display (welcomeAnimation r.1.1) = true).
Proof.
  intros [Hk _]%reachable_invariant r. subst r.
  pose proof (sameRecords_checker (script p)) as (Hv & Hs & Hi & _).
  destruct (showWelcomeAnimation_kept name vehicleModel p Hk)
    as [[Hm [ids ->]]|[Hno ->]].
  - split; [|done]. intros _.
    set (s2 := (doValidatedBiometricsMatchSameUser (script p)).2) in *.
    cbn [fst snd script welcomeAnimation]. split; [done|]. split; [done|].
    split; [by rewrite Hv|]. split; [by rewrite Hs|]. split; [by rewrite Hi|].
    split; [apply count_reset|]. simpl. split; by simplify_map_eq.
  - split; [done|]. intros _. done.
Qed.

Lemma welcome_outcome_witness :
  let p := Page (setBiometricValidated "voice" true (Str "1")
                   (setBiometricValidated "face" true (Str "1")
                      (initial "")).1).1 no_welcome in
  reachable (script p)
  ∧ (showWelcomeAnimation "Ada" (Some "Audi Q8") p).2 = false
  ∧ content (welcomeAnimation
               (showWelcomeAnimation "Ada" (Some "Audi Q8") p).1.1)
    = Some ("Ada", carSvgSrc (Some "Audi Q8")).
Proof.
  intros p.
  assert (reachable (script p)) as Hr by exact reachable_two_validated.
  assert ((showWelcomeAnimation "Ada" (Some "Audi Q8") p).2 = false)
    as Hshown by (vm_compute; reflexivity).
  split; [exact Hr|]. split; [exact Hshown|].
  destruct (proj2 (welcome_outcome "Ada" (Some "Audi Q8") p Hr) Hshown)
    as (_ & _ & _ & _ & Hcontent & _).
  exact Hcontent.
Defined.


(** X10. The welcome's own check is stricter than the script's.  On a
    page the script has been running on since a first visit, a welcome
    that is not blocked means [doValidatedBiometricsMatchSameUser] returns
    true.  The other direction fails: after face and voice are validated
    for "1" and face again for the number 1, the script's check returns
    true with two factors validated, and the welcome blocks. *)
Theorem welcome_is_stricter_than_the_check :
  (∀ name vehicleModel p,
     reachable (script p) →
     (showWelcomeAnimation name vehicleModel p).2 = false →
     (doValidatedBiometricsMatchSameUser (script p)).1 = true)
  ∧ ∃ s, reachable s
         ∧ (doValidatedBiometricsMatchSameUser s).1 = true
         ∧ countValidatedBiometrics s = 2%nat
         ∧ ∀ name vehicleModel w,
             (showWelcomeAnimation name vehicleModel (Page s w)).2 = true.
Proof.
  split.
  - intros name vehicleModel p [Hk _]%reachable_invariant.
    destruct (showWelcomeAnimation_kept name vehicleModel p Hk)
      as [[_ [ids ->]]|[Hno _]]; [done|].
    intros _. by apply agreeing_ids_pass.
  - exists (setBiometricValidated "face" true (Num 1)
              (setBiometricValidated "voice" true (Str "1")
                 (setBiometricValidated "face" true (Str "1")
                    (initial "")).1).1).1.
    split.
    { eapply reachable_step; [|apply step_setBiometricValidated].
      exact reachable_two_validated. }
    split; [vm_compute; reflexivity|]. split; [vm_compute; reflexivity|].
    intros name vehicleModel w. vm_compute. reflexivity.
Qed.

(** *** From the door animation to the welcome *)

Lemma sameRecords_session_setItem k v s :
  sameRecords s (session_setItem k v s).
Proof. by destruct s. Qed.

(** [showWelcomeAnimation] keeps what holds of the script's states. *)
Lemma invariant_showWelcomeAnimation name vehicleModel p :
  invariant (script p) →
  invariant (script (showWelcomeAnimation name vehicleModel p).1.1).
Proof.
  intros [Hk Hc].
  destruct (showWelcomeAnimation_kept name vehicleModel p Hk)
    as [[_ [ids ->]]|[_ ->]]; [|done].
  cbn [fst script]. apply invariant_reset.
  eapply kept_ext; [apply sameRecords_session_setItem|].
  eapply kept_ext; [apply sameRecords_session_setItem|].
  eapply kept_ext; [apply sameRecords_checker|done].
Qed.

(** X11. The hand-over at the end of the door animation keeps what holds
    of the script's states, also when the welcome blocks and resets: the
    stored copies still mirror the variables, no factor keeps a stale
    identity, and either fewer than two factors are validated or the
    consistency check returns true. *)
Theorem handover_keeps_the_invariant available ownerName vehicleModel p :
  invariant (script p) →
  invariant
    (script (Handover.afterDoorAnimation available ownerName vehicleModel p).1.1).
Proof.
  intros Hinv. unfold Handover.afterDoorAnimation.
  pose proof (invariant_ext _ _ (sameRecords_hide (script p)) Hinv) as Hhide.
  destruct (hideCarDoorAnimation (script p)) as [s es]. cbn [fst] in Hhide.
  destruct available; [|done].
  destruct (negb _); [|done].
  pose proof (invariant_showWelcomeAnimation ownerName vehicleModel
                (Page s (welcomeAnimation p)) Hhide) as Hshow.
  destruct (showWelcomeAnimation _ _ _) as [[p' ws] blocked].
  cbn [fst script] in *.
  eapply invariant_ext; [apply sameRecords_session_setItem|done].
Qed.

Lemma handover_keeps_the_invariant_witness :
  let p := Page (setBiometricValidated "voice" true (Str "1")
                   (setBiometricValidated "face" true (Str "1")
                      (initial "")).1).1 no_welcome in
  invariant (script p)
  ∧ invariant
      (script (Handover.afterDoorAnimation true "Ada" None p).1.1).
Proof.
  intros p.
  assert (invariant (script p)) as Hinv
    by exact (reachable_invariant _ reachable_two_validated).
  split; [exact Hinv|].
  exact (handover_keeps_the_invariant true "Ada" None p Hinv).
Defined.




(** *** The image of the welcome *)

Lemma append_cons c a b : String c a +:+ b = String c (a +:+ b).
Proof. reflexivity. Qed.

Lemma prefix_spec key s :
  String.prefix key s = true ↔ ∃ b, s = key +:+ b.
Proof.
  revert s. induction key as [|c key IH]; intros s; simpl.
  - destruct s; (split; [by eexists|done]).
  - destruct s as [|c' s]; simpl.
    + split; [done|]. intros [b Hb]. by rewrite append_cons in Hb.
    + destruct (Ascii.ascii_dec c c') as [->|Hne].
      * rewrite IH. split; intros [b Hb]; exists b.
        -- by rewrite append_cons, Hb.
        -- rewrite append_cons in Hb. congruence.
      * split; [done|]. intros [b Hb]. rewrite append_cons in Hb. congruence.
Qed.

(** [s.includes(key)]: [key] occurs somewhere in [s]. *)
Lemma includes_spec s key :
  includes s key = true ↔ ∃ a b, s = a +:+ key +:+ b.
Proof.
  induction s as [|c s IH]; cbn [includes];
    rewrite orb_true_iff, prefix_spec.
  - split.
    + intros [[b Hb]|?]; [|done]. by exists "", b.
    + intros ([|c' a] & b & Hb); [|by rewrite append_cons in Hb].
      left. by exists b.
  - rewrite IH. split.
    + intros [[b Hb]|(a & b & ->)]; [by exists "", b|].
      by exists (String c a), b.
    + intros ([|c' a] & b & Hb); [left; by exists b|].
      right. exists a, b. rewrite append_cons in Hb. congruence.
Qed.

Lemma find_first {A} (p : A → bool) (l : list A) :
  match List.find p l with
  | Some x => ∃ pre post, l = pre ++ x :: post ∧ p x = true
                          ∧ ∀ y, y ∈ pre → p y = false
  | None => ∀ y, y ∈ l → p y = false
  end.
Proof.
  induction l as [|x l IH]; simpl; [by intros ? ?%elem_of_nil|].
  destruct (p x) eqn:Hx.
  - exists [], l. split; [done|]. split; [done|]. by intros ? ?%elem_of_nil.
  - destruct (List.find p l) as [z|].
    + destruct IH as (pre & post & -> & Hz & Hpre).
      exists (x :: pre), post. split; [done|]. split; [done|].
      intros y [->|Hy]%elem_of_cons; [done|by apply Hpre].
    + intros y [->|Hy]%elem_of_cons; [done|by apply IH].
Qed.

Lemma find_decomposed {A} (p : A → bool) (pre post : list A) x :
  p x = true → (∀ y, y ∈ pre → p y = false) →
  List.find p (pre ++ x :: post) = Some x.
Proof.
  intros Hx. induction pre as [|y pre IH]; intros Hpre; simpl.
  - by rewrite Hx.
  - rewrite (Hpre y) by left. apply IH. intros z Hz. apply Hpre. by right.
Qed.

(** No key of [modelMap] occurs in the empty name, and no image of it is
    the generic one. *)
Lemma modelMap_entries entry :
  entry ∈ modelMap → includes "" entry.1 = false ∧ entry.2 ≠ generic_model.
Proof.
  intros Hin.
  assert (Forall (λ e : string * string,
                    includes "" e.1 = false ∧ e.2 ≠ generic_model) modelMap)
    as Hall by (repeat constructor; done).
  by apply (proj1 (Forall_forall _ _) Hall).
Qed.

(** X13. The image [showWelcomeAnimation] puts under the name.  It is the
    generic car exactly when the vehicle model is missing or none of the
    keys A6, A7, Q7, Q8, RS, e-tron occurs in it, letter case included;
    otherwise it is the image of the first of these keys, in this order,
    that occurs in the model name. *)
Theorem welcome_image_is_first_match :
  carSvgSrc None = generic_model
  ∧ ∀ model,
      (carSvgSrc (Some model) = generic_model
       ↔ ∀ key, key ∈ modelMap.*1 → ¬ ∃ a b, model = a +:+ key +:+ b)
      ∧ ∀ pre key image post,
          modelMap = pre ++ (key, image) :: post →
          (∃ a b, model = a +:+ key +:+ b) →
          (∀ k, k ∈ pre.*1 → ¬ ∃ a b, model = a +:+ k +:+ b) →
          carSvgSrc (Some model) = image.
Proof.
  split; [done|]. intros model. split.
  - unfold carSvgSrc. destruct (String.eqb_spec model "") as [->|Hne].
    + split; [|done]. intros _ key ([k image] & -> & Hin)%list_elem_of_fmap.
      intros Hocc%includes_spec.
      destruct (modelMap_entries _ Hin) as [Hnot _]. simpl in *. congruence.
    + pose proof (find_first (λ entry : string * string,
                                includes model entry.1) modelMap) as Hfind.
      destruct (List.find _ modelMap) as [entry|].
      * destruct Hfind as (pre & post & Hmap & Hocc & _).
        assert (entry ∈ modelMap) as Hin.
        { rewrite Hmap. apply elem_of_app. right. left. }
        split.
        -- intros Hgen. by destruct (modelMap_entries _ Hin) as [_ []].
        -- intros Hnone. destruct (Hnone entry.1).
           ++ apply list_elem_of_fmap. by exists entry.
           ++ by apply includes_spec.
      * split; [|done]. intros _ key ([k image] & -> & Hin)%list_elem_of_fmap.
        intros Hocc%includes_spec. rewrite (Hfind _ Hin) in Hocc. done.
  - intros pre key image post Hmap Hocc Hpre. unfold carSvgSrc.
    assert ((key, image) ∈ modelMap) as Hin.
    { rewrite Hmap. apply elem_of_app. right. left. }
    destruct (String.eqb_spec model "") as [->|Hne].
    { apply includes_spec in Hocc.
      destruct (modelMap_entries _ Hin) as [Hnot _]. simpl in *. congruence. }
    rewrite Hmap, (find_decomposed _ pre post (key, image)); [done|..].
    + by apply includes_spec.
    + intros [k i] Hk. simpl. destruct (includes model k) eqn:Hinc; [|done].
      destruct (Hpre k).
      * apply list_elem_of_fmap. by exists (k, i).
      * by apply includes_spec.
Qed.


(** *** Taking a validation back *)

(** Setting a flag to false makes no name read as validated that did not
    before. *)
Lemma truthy_after_false (o : object bool) type k :
  linked o = true →
  slot_truthy (get_prop (set_prop o type false) k) = true →
  slot_truthy (get_prop o k) = true.
Proof.
  intros Hl. destruct (decide (type = k)) as [->|Hne].
  - unfold set_prop. destruct (assoc (own o) k) eqn:Hk.
    + unfold get_prop at 1. cbn [own].
      rewrite assoc_update_eq by eauto. done.
    + rewrite Hl. cbn [andb]. destruct (bool_decide (k = "__proto__")).
      * cbn [is_null bool_primitive negb]. rewrite <- Hl. by destruct o.
      * unfold get_prop at 1. cbn [own]. rewrite assoc_app, Hk. simpl.
        by rewrite decide_True.
  - unfold get_prop.
    rewrite (set_prop_other o type k false Hne),
      (linked_set_prop o type false Hl), Hl. done.
Qed.

Lemma filter_length_le {A} (p q : A → bool) (l : list A) :
  (∀ x, p x = true → q x = true) →
  (length (List.filter p l) ≤ length (List.filter q l))%nat.
Proof.
  intros Hpq. induction l as [|x l IH]; simpl; [lia|].
  destruct (p x) eqn:Hp.
  - rewrite (Hpq x Hp). simpl. lia.
  - destruct (q x); simpl; lia.
Qed.

Lemma count_after_false (o : object bool) type :
  linked o = true →
  (length (List.filter (λ k, slot_truthy (get_prop (set_prop o type false) k))
             (keys (set_prop o type false)))
   ≤ length (List.filter (λ k, slot_truthy (get_prop o k)) (keys o)))%nat.
Proof.
  intros Hl.
  pose proof (filter_length_le
                (λ k, slot_truthy (get_prop (set_prop o type false) k))
                (λ k, slot_truthy (get_prop o k)) (keys o)
                (λ k, truthy_after_false o type k Hl)) as Hle.
  assert (keys (set_prop o type false) = keys o
          ∨ keys (set_prop o type false) = keys o ++ [type]
            ∧ get_prop (set_prop o type false) type = Own false) as [->| [-> Hf]];
    [|done|].
  - unfold keys, set_prop. destruct (assoc (own o) type) eqn:Hk; cbn [own].
    + left. apply update_keys.
    + destruct (linked o && _); cbn [own]; [by left|]. right.
      split; [by rewrite fmap_app|].
      apply get_prop_own. cbn [own]. rewrite assoc_app, Hk. simpl.
      by rewrite decide_True.
  - rewrite List.filter_app, length_app. cbn [List.filter].
    rewrite Hf. simpl. lia.
Qed.

Lemma elem_of_update {A} (l : list (string * A)) type v k a :
  (k, a) ∈ update l type v → (k, a) ∈ l ∨ a = v.
Proof.
  induction l as [|[k0 a0] l IH]; simpl; [by left|].
  destruct (decide (k0 = type)).
  - intros [[= -> ->]|Hin]%elem_of_cons; [by right|]. left. by right.
  - intros [[= -> ->]|Hin]%elem_of_cons; [left; left|].
    destruct (IH Hin); [left; by right|by right].
Qed.

Lemma elem_of_set_prop {A} `{Primitive A} (o : object A) type v k a :
  (k, a) ∈ own (set_prop o type v) → (k, a) ∈ own o ∨ a = v.
Proof.
  unfold set_prop. destruct (assoc (own o) type); cbn [own].
  - apply elem_of_update.
  - destruct (linked o && _); cbn [own]; [by left|].
    intros [?|[= -> ->]%list_elem_of_singleton]%elem_of_app; [by left|by right].
Qed.

(** After a validation is taken back the check collects no identifier it
    did not collect before. *)
Lemma collected_after_false type userId s u :
  linked (validatedBiometrics s) = true →
  u ∈ collectedUserIds (recordValidation type false userId s) →
  u ∈ collectedUserIds s.
Proof.
  intros Hl. unfold collectedUserIds.
  rewrite record_validated, record_ids.
  intros ([k u'] & -> & [Hin Hp]%list_elem_of_In%List.filter_In)%list_elem_of_fmap.
  apply andb_true_iff in Hp as [Htruthy Hnn]. cbn [fst snd] in *.
  apply list_elem_of_fmap. exists (k, u'). split; [done|].
  apply list_elem_of_In, List.filter_In. split.
  - apply list_elem_of_In in Hin.
    apply elem_of_set_prop in Hin as [Hin| ->]; [|done].
    by apply list_elem_of_In.
  - cbn [fst snd]. rewrite Hnn, andb_true_r.
    by apply (truthy_after_false _ type).
Qed.

Lemma checker_pairwise s :
  (doValidatedBiometricsMatchSameUser s).1 = true →
  ∀ u v, u ∈ collectedUserIds s → v ∈ collectedUserIds s →
         String_ u = String_ v.
Proof.
  intros Hm. rewrite checker_result in Hm.
  apply orb_true_iff in Hm as [Hlen|Hall].
  - apply Nat.leb_le in Hlen. intros u v Hu Hv.
    destruct (collectedUserIds s) as [|x [|y l]]; simpl in Hlen; [|..|lia].
    + by apply elem_of_nil in Hu.
    + apply list_elem_of_singleton in Hu, Hv. by subst.
  - intros u v Hu Hv.
    pose proof (proj1 (allMatch_spec _) Hall) as Hfirst.
    pose proof (Hfirst u Hu) as Hu'. pose proof (Hfirst v Hv) as Hv'.
    destruct (head (collectedUserIds s)); simpl in *; congruence.
Qed.

(** X14. Taking a validation back starts nothing.  In every state the
    script gets into from a first visit, [setBiometricValidated(type,
    false, userId)] shows no animation and runs no security violation: it
    has no effect but, for an unknown type, the console message.  No more
    factors are validated than before, the session flags and the
    animation flag are as they were, the check collects no identifier it
    did not collect before, and a type that is a property of
    [validatedBiometrics] reads false afterwards. *)
Theorem invalidation_starts_nothing type userId s :
  reachable s →
  let r := setBiometricValidated type false userId s in
  (r.2 = []
   ∨ r.2 = [ ConsoleError ("Unknown biometric type: " ++ type) None ]
     ∧ r.1 = s)
  ∧ (countValidatedBiometrics r.1 ≤ countValidatedBiometrics s)%nat
  ∧ sessionValidations r.1 = sessionValidations s
  ∧ animationVisible r.1 = animationVisible s
  ∧ (∀ u, u ∈ collectedUserIds r.1 → u ∈ collectedUserIds s)
  ∧ (type ∈ keys (validatedBiometrics s) →
     get_prop (validatedBiometrics r.1) type = Own false).
Proof.
  intros [Hk Hc]%reachable_invariant r. subst r.
  pose proof (kept_linked_validated _ Hk) as Hl.
  destruct (is_defined (get_prop (validatedBiometrics s) type)) eqn:Hdef.
  2:{ rewrite setBiometricValidated_unknown by done. cbn [fst snd].
      split; [by right|]. split; [lia|]. split; [done|]. split; [done|].
      split; [done|]. intros [a Ha]%elem_of_keys_assoc.
      apply get_prop_own in Ha. by rewrite Ha in Hdef. }
  rewrite setBiometricValidated_cases by done.
  set (s1 := recordValidation type false userId s).
  assert (countValidatedBiometrics s1 ≤ countValidatedBiometrics s)%nat
    as Hcount.
  { unfold countValidatedBiometrics. rewrite !count_fold.
    unfold s1. rewrite record_validated. cbn [Nat.add].
    by apply count_after_false. }
  assert (∀ u, u ∈ collectedUserIds s1 → u ∈ collectedUserIds s) as Hsub
    by (intros u; by apply collected_after_false).
  assert ((2 <=? countValidatedBiometrics s1)%nat
          && negb (doValidatedBiometricsMatchSameUser s1).1 = false) as Hno.
  { destruct (2 <=? countValidatedBiometrics s1)%nat eqn:Htwo; [|done].
    apply Nat.leb_le in Htwo. destruct Hc as [Hlt|Hm]; [lia|].
    pose proof (checker_pairwise s Hm) as Hpair.
    cbn [andb]. apply negb_false_iff, checker_true_iff. right.
    intros u Hu. destruct (collectedUserIds s1) as [|first l] eqn:Hcol;
      [by apply elem_of_nil in Hu|].
    simpl. f_equal. apply Hpair; apply Hsub; [done|left]. }
  rewrite Hno, !andb_false_r. cbn [andb fst snd].
  pose proof (sameRecords_checker s1) as (Hv & Hs & Hi & _).
  destruct (checker_state s1) as [ss Hss].
  split; [by left|].
  split; [by rewrite <- (count_ext s1 _ Hv)|].
  split; [rewrite <- Hs; unfold s1; by rewrite record_session|].
  split; [rewrite Hss; unfold s1; apply record_animationVisible|].
  split.
  - intros u Hu. apply Hsub.
    by rewrite (collected_ext s1 _ Hv (f_equal own Hi)).
  - intros Hin%elem_of_keys_assoc. rewrite <- Hv. unfold s1.
    rewrite record_validated. apply get_prop_own. by apply set_prop_own.
Qed.

Lemma invalidation_starts_nothing_witness :
  let s := (setBiometricValidated "voice" true (Str "1")
              (setBiometricValidated "face" true (Str "1")
                 (initial "")).1).1 in
  reachable s
  ∧ (countValidatedBiometrics
       (setBiometricValidated "face" false Null s).1
     ≤ countValidatedBiometrics s)%nat.
Proof.
  intros s. split; [exact reachable_two_validated|].
  destruct (invalidation_starts_nothing "face" Null s reachable_two_validated)
    as (_ & Hcount & _).
  exact Hcount.
Defined.

End Further.
